(** * The Federation: query resolvers and local settings

    A shallow embedding of [thefederation/schema.py] (the GraphQL [Query]
    resolvers, which build Django ORM querysets) and of the test-mode switch
    of [config/local.py], together with the properties the specification
    states about them.

    Tables are lists of rows, a queryset is the list of rows it evaluates
    to, a relational join is a [mbind] over the related rows, and a resolver
    that can raise returns in the [outcome] monad. *)

From stdpp Require Import base decidable option list sorting numbers strings gmap.

Local Open Scope Z_scope.
Set Warnings "-clear-no-such-hyp".

(** ** Exceptions *)

Inductive exn :=
  | ValueError (msg : string)
  | DatabaseError (msg : string).

Inductive outcome (A : Type) :=
  | Returned (a : A)
  | Raised (e : exn).
Arguments Returned {A} a.
Arguments Raised {A} e.

Definition outcome_bind {A B} (m : outcome A) (k : A → outcome B) : outcome B :=
  match m with
  | Returned a => k a
  | Raised e => Raised e
  end.

Notation "'let*' x := m 'in' k" := (outcome_bind m (λ x, k))
  (at level 10, x name, m at level 100, k at level 200).

(** Evaluates [f] on every row, left to right; the first exception wins. *)
Fixpoint outcome_mapM {A B} (f : A → outcome B) (l : list A) : outcome (list B) :=
  match l with
  | [] => Returned []
  | a :: l' =>
      let* b := f a in
      let* bs := outcome_mapM f l' in
      Returned (b :: bs)
  end.

(** ** Python values *)

(** [kwargs.get(k)] is [kwargs !! k]; a value is truthy when it is neither
    [None] nor the empty string. *)
Definition truthy (v : option string) : bool :=
  match v with
  | Some s => bool_decide (s ≠ "")
  | None => false
  end.

(** [str.lower()] is Python's own, aware of all of Unicode: the resolvers
    that call it take it as the parameter [lower].  [ascii_lower] turns the
    ASCII letters A to Z into a to z and leaves every other byte alone; it
    is what [str.lower()] does to ASCII text, and serves where a text is
    ASCII. *)
Definition lower_ascii (c : Ascii.ascii) : Ascii.ascii :=
  let n := Ascii.N_of_ascii c in
  if ((65 <=? n) && (n <=? 90))%N then Ascii.ascii_of_N (n + 32) else c.

Fixpoint ascii_lower (s : string) : string :=
  match s with
  | EmptyString => EmptyString
  | String c s' => String (lower_ascii c) (ascii_lower s')
  end.

(** [datetime.date]: compared field by field, year first. *)
Record date := Date { year : Z; month : Z; day : Z }.

#[global] Instance date_eq_dec : EqDecision date.
Proof. solve_decision. Defined.

Definition date_leb (a b : date) : bool :=
  (year a <? year b)
  || ((year a =? year b)
      && ((month a <? month b)
          || ((month a =? month b) && (day a <=? day b)))).

Definition date_le (a b : date) : Prop := date_leb a b = true.


(** ** The relational model of [thefederation.models]

    The model classes are declared outside the two modules embedded here.
    A record keeps the columns that the data model lists and the resolvers
    mention; a foreign key holds the primary key of the row it points to,
    and a nullable column is an [option]. *)

(** Modelled from the spec: the model class [Platform], a named software
    platform. *)
Record Platform := { platform_pk : Z; platform_name : string }.

(** Modelled from the spec: the model class [Protocol], a named federation
    protocol. *)
Record Protocol := { protocol_pk : Z; protocol_name : string }.

(** Modelled from the spec: the model class [Node], with its host, its
    active flag and its platform. *)
Record Node := {
  node_pk : Z;
  host : string;
  active : bool;
  node_platform : Z
}.

(** Modelled from the spec: the model class [Stat], a daily snapshot of the
    usage counts, scoped by its [node], [platform] and [protocol] columns.
    The counts are nullable, which covers a table where they never are. *)
Record Stat := {
  stat_pk : Z;
  stat_date : date;
  stat_node : option Z;
  stat_platform : option Z;
  stat_protocol : option Z;
  users_total : option Z;
  users_half_year : option Z;
  users_monthly : option Z;
  users_weekly : option Z;
  local_posts : option Z;
  local_comments : option Z
}.

#[global] Instance Platform_eq_dec : EqDecision Platform.
Proof. solve_decision. Defined.
#[global] Instance Protocol_eq_dec : EqDecision Protocol.
Proof. solve_decision. Defined.
#[global] Instance Node_eq_dec : EqDecision Node.
Proof. solve_decision. Defined.
#[global] Instance Stat_eq_dec : EqDecision Stat.
Proof. solve_decision. Defined.

(** The tables.  [node_protocols] is the many-to-many table behind
    [Node.protocols]: rows of (node primary key, protocol primary key). *)
Record Database := {
  platforms : list Platform;
  protocols : list Protocol;
  nodes : list Node;
  node_protocols : list (Z * Z);
  stats : list Stat
}.

(** The numeric columns of [Stat] that the aggregate resolvers name. *)
Inductive metric :=
  | Users_total
  | Users_half_year
  | Users_monthly
  | Users_weekly
  | Local_posts
  | Local_comments.

Definition column (m : metric) : Stat → option Z :=
  match m with
  | Users_total => users_total
  | Users_half_year => users_half_year
  | Users_monthly => users_monthly
  | Users_weekly => users_weekly
  | Local_posts => local_posts
  | Local_comments => local_comments
  end.

(** ** ORM building blocks *)

Fixpoint Zsum (l : list Z) : Z :=
  match l with
  | [] => 0
  | z :: l' => z + Zsum l'
  end.

Fixpoint Zmaximum (z : Z) (l : list Z) : Z :=
  match l with
  | [] => z
  | y :: l' => Z.max z (Zmaximum y l')
  end.

(** The non-NULL values of a column. *)
Definition non_null (l : list (option Z)) : list Z := omap id l.

(** SQL [SUM]: NULLs are skipped, and the sum of no value is NULL. *)
Definition sql_sum (l : list (option Z)) : option Z :=
  match non_null l with
  | [] => None
  | zs => Some (Zsum zs)
  end.

(** SQL [MAX]: NULLs are skipped, and the maximum of no value is NULL. *)
Definition sql_max (l : list (option Z)) : option Z :=
  match non_null l with
  | [] => None
  | z :: zs => Some (Zmaximum z zs)
  end.

(** SQL [AVG], kept as the two operands of its division (the sum and the
    number of the non-NULL values); NULL when there is no such value. *)
Definition sql_avg (l : list (option Z)) : option (Z * Z) :=
  match non_null l with
  | [] => None
  | zs => Some (Zsum zs, Z.of_nat (length zs))
  end.

(** The aggregate functions of [django.db.models], over the rows of a group.
    [Count('*')] counts rows and is never NULL. *)
Definition Sum {A} (col : A → option Z) (rows : list A) : option Z :=
  sql_sum (col <$> rows).

Definition Max {A} (col : A → option Z) (rows : list A) : option Z :=
  sql_max (col <$> rows).

Definition Avg {A} (col : A → option Z) (rows : list A) : option (Z * Z) :=
  sql_avg (col <$> rows).

Definition Count {A} (rows : list A) : option Z :=
  Some (Z.of_nat (length rows)).

(** [qs.filter(rel__col=...)] across a join: a row is kept once for every
    related row that satisfies the condition. *)
Definition join_filter {A B} (rel : A → list B) (P : B → Prop)
    `{∀ b, Decision (P b)} (l : list A) : list A :=
  l ≫= λ a, (λ _, a) <$> filter P (rel a).

(** [qs.values(key).annotate(agg)]: one row per distinct key, carrying the
    aggregate of the rows of that key. *)
Definition values_annotate {A K C} `{EqDecision K}
    (key : A → K) (agg : list A → C) (qs : list A) : list (K * C) :=
  (λ k, (k, agg (filter (λ a, key a = k) qs))) <$> remove_dups (key <$> qs).

(** [qs.order_by(...)] for an ordering [R] of the rows. *)
Definition order_by {A} (R : relation A) `{∀ x y, Decision (R x y)}
    (qs : list A) : list A :=
  merge_sort R qs.

(** A [Subquery] used as a column: NULL when it selects no row, the value of
    its row when it selects one, and a database error when it selects more. *)
Definition Subquery {A} (rows : list (option A)) : outcome (option A) :=
  match rows with
  | [] => Returned None
  | [v] => Returned v
  | _ => Raised (DatabaseError "more than one row returned by a subquery used as an expression")
  end.

(** A quotient of two columns cast to float, kept as its two operands.
    The division of the database is strict, a NULL operand gives NULL, and
    it fails on a divisor that is zero. *)
Definition zero_divisor (ops : option Z * option Z) : Prop :=
  is_Some ops.1 ∧ ops.2 = Some 0.

#[global] Instance zero_divisor_dec ops : Decision (zero_divisor ops).
Proof. unfold zero_divisor. apply _. Defined.

Definition float_quotient (ops : option Z * option Z) : outcome (option Z * option Z) :=
  if decide (zero_divisor ops) then Raised (DatabaseError "division by zero")
  else Returned ops.

(** Evaluating the rows of a query whose count is such a quotient: one
    division by zero fails the query. *)
Definition evaluate_quotients {K} (rows : list (K * (option Z * option Z)))
    : outcome (list (K * (option Z * option Z))) :=
  outcome_mapM (λ r, let* c := float_quotient r.2 in Returned (r.1, c)) rows.

(** [qs.annotate(col=Subquery(...))]. *)
Definition annotate {A C} (sub : A → outcome C) (qs : list A) : outcome (list (A * C)) :=
  outcome_mapM (λ a, let* c := sub a in Returned (a, c)) qs.

(** [qs.first()] of a queryset without an ordering: the row of least
    primary key, [None] for an empty queryset. *)
Fixpoint first (qs : list Stat) : option Stat :=
  match qs with
  | [] => None
  | s :: qs' =>
      match first qs' with
      | Some m => if bool_decide (stat_pk s ≤ stat_pk m) then Some s else Some m
      | None => Some s
      end
  end.

(** ** Relations followed by the lookups *)

(** [stat.node] *)
Definition Stat_node (db : Database) (s : Stat) : list Node :=
  match stat_node s with
  | Some k => filter (λ n, node_pk n = k) (nodes db)
  | None => []
  end.

(** [stat.platform] and [stat.protocol] *)
Definition Stat_platform (db : Database) (s : Stat) : list Platform :=
  match stat_platform s with
  | Some k => filter (λ p, platform_pk p = k) (platforms db)
  | None => []
  end.

Definition Stat_protocol (db : Database) (s : Stat) : list Protocol :=
  match stat_protocol s with
  | Some k => filter (λ p, protocol_pk p = k) (protocols db)
  | None => []
  end.

(** [node.platform] *)
Definition Node_platform (db : Database) (n : Node) : list Platform :=
  filter (λ p, platform_pk p = node_platform n) (platforms db).

(** The rows of the many-to-many table of a node, as protocol keys. *)
Definition Node_protocol_ids (db : Database) (n : Node) : list Z :=
  snd <$> filter (λ r, r.1 = node_pk n) (node_protocols db).

(** [node.protocols] *)
Definition Node_protocols (db : Database) (n : Node) : list Protocol :=
  Node_protocol_ids db n ≫= λ k, filter (λ p, protocol_pk p = k) (protocols db).

(** Modelled from the spec: [Node.objects.active()] and [qs.active()], a
    method of the node manager, which is declared outside the embedded
    modules.  It "filters to active nodes": it keeps the nodes whose active
    flag is set. *)
Definition active_nodes (qs : list Node) : list Node :=
  filter (λ n, active n = true) qs.

(** ** Orderings *)

#[global] Instance date_le_dec : RelDecision date_le.
Proof. intros a b. unfold date_le. apply _. Defined.

(** [order_by('date')] on rows that carry their date first. *)
Definition by_date {C} : relation (date * C) := λ r1 r2, date_le r1.1 r2.1.

#[global] Instance by_date_dec {C} : RelDecision (@by_date C).
Proof. intros r1 r2. unfold by_date. apply _. Defined.

(** [F(col).desc(nulls_last=True)]: larger values first, NULL after every
    value. *)
Definition desc_nulls_last (a b : option Z) : Prop :=
  match a, b with
  | Some x, Some y => y ≤ x
  | Some _, None => True
  | None, Some _ => False
  | None, None => True
  end.

#[global] Instance desc_nulls_last_dec : RelDecision desc_nulls_last.
Proof. intros [x|] [y|]; simpl; apply _. Defined.

(** [order_by('-col')]: larger values first; without [nulls_last] the
    database decides where NULL goes, here before every value as PostgreSQL
    does. *)
Definition desc (a b : option Z) : Prop :=
  match a, b with
  | Some x, Some y => y ≤ x
  | Some _, None => False
  | None, _ => True
  end.

#[global] Instance desc_dec : RelDecision desc.
Proof. intros [x|] [y|]; simpl; apply _. Defined.

(** The orderings lifted to annotated rows. *)
Definition by_users : relation (Node * option Z) := λ r1 r2, desc_nulls_last r1.2 r2.2.

#[global] Instance by_users_dec : RelDecision by_users.
Proof. intros r1 r2. unfold by_users. apply _. Defined.

Definition by_active_nodes {A} : relation (A * option Z) := λ r1 r2, desc r1.2 r2.2.

#[global] Instance by_active_nodes_dec {A} : RelDecision (@by_active_nodes A).
Proof. intros r1 r2. unfold by_active_nodes. apply _. Defined.

(** [col__gt=0]; a NULL never compares greater. *)
Definition gt0 (c : option Z) : Prop :=
  match c with
  | Some z => 0 < z
  | None => False
  end.

#[global] Instance gt0_dec c : Decision (gt0 c).
Proof. destruct c; simpl; apply _. Defined.

(** ** [thefederation/schema.py]: class [Query] *)

Module Query.

Definition dquote : string := String (Ascii.ascii_of_nat 34) EmptyString.

(** The message of the [ValueError]; its last quotation mark is missing in
    the source too. *)
Definition itemType_message : string :=
  "itemType should be " +:+ dquote +:+ "platform" +:+ dquote +:+ ", "
    +:+ dquote +:+ "node" +:+ dquote +:+ " or " +:+ dquote +:+ "protocol".

(** [qs.values('date').annotate(count=agg).values('date', 'count').order_by('date')] *)
Definition date_counts {C} (agg : list Stat → C) (qs : list Stat) : list (date * C) :=
  order_by by_date (values_annotate stat_date agg qs).

(** [Stat.objects.filter(node__platform__name=value)] and its siblings. *)
Definition filter_node__platform__name (db : Database) (value : option string) : list Stat :=
  join_filter (λ s, Stat_node db s ≫= Node_platform db)
    (λ p, Some (platform_name p) = value) (stats db).

Definition filter_node__protocols__name (db : Database) (value : option string) : list Stat :=
  join_filter (λ s, Stat_node db s ≫= Node_protocols db)
    (λ p, Some (protocol_name p) = value) (stats db).

Definition filter_node__host (db : Database) (value : option string) : list Stat :=
  join_filter (Stat_node db) (λ n, Some (host n) = value) (stats db).

(** [Stat.objects.filter(node__isnull=False)] *)
Definition filter_node__isnull_False (db : Database) : list Stat :=
  filter (λ s, stat_node s ≠ None) (stats db).

Definition _get_stat_date_counts (db : Database) (stat : metric)
    (value item_type : option string) : outcome (list (date * option Z)) :=
  let* qs :=
    if truthy value && truthy item_type then
      if bool_decide (item_type = Some "platform") then
        Returned (filter_node__platform__name db value)
      else if bool_decide (item_type = Some "protocol") then
        Returned (filter_node__protocols__name db value)
      else if bool_decide (item_type = Some "node") then
        Returned (filter_node__host db value)
      else Raised (ValueError itemType_message)
    else Returned (filter_node__isnull_False db) in
  Returned (date_counts (Sum (column stat)) qs).

Definition resolve_nodes (db : Database) (today : date) (kwargs : gmap string string)
    : outcome (list (Node * option Z)) :=
  let qs :=
    if truthy (kwargs !! "platform") then
      join_filter (Node_platform db) (λ p, Some (platform_name p) = kwargs !! "platform")
        (active_nodes (nodes db))
    else if truthy (kwargs !! "protocol") then
      join_filter (Node_protocols db) (λ p, Some (protocol_name p) = kwargs !! "protocol")
        (active_nodes (nodes db))
    else active_nodes (nodes db) in
  let qs :=
    if truthy (kwargs !! "host") then filter (λ n, Some (host n) = kwargs !! "host") qs
    else qs in
  let stat (n : Node) : list (option Z) :=
    snd <$> values_annotate users_monthly (Max users_monthly)
      (filter (λ s, stat_node s = Some (node_pk n) ∧ stat_date s = today) (stats db)) in
  let* rows := annotate (λ n, Subquery (stat n)) (active_nodes qs) in
  Returned (order_by by_users rows).

Definition resolve_platforms (lower : string → string) (db : Database)
    (kwargs : gmap string string) : outcome (list (Platform * option Z)) :=
  let qs :=
    if truthy (kwargs !! "name") then
      filter (λ p, Some (platform_name p) = lower <$> kwargs !! "name") (platforms db)
    else platforms db in
  let nodes (p : Platform) : list (option Z) :=
    snd <$> values_annotate node_platform Count
      (filter (λ n, node_platform n = platform_pk p) (active_nodes (nodes db))) in
  let* rows := annotate (λ p, Subquery (nodes p)) qs in
  Returned (order_by by_active_nodes (filter (λ r, gt0 r.2) rows)).

Definition resolve_protocols (lower : string → string) (db : Database)
    (kwargs : gmap string string) : outcome (list (Protocol * option Z)) :=
  let qs :=
    if truthy (kwargs !! "name") then
      filter (λ p, Some (protocol_name p) = lower <$> kwargs !! "name") (protocols db)
    else protocols db in
  let nodes (p : Protocol) : list (option Z) :=
    snd <$> values_annotate snd Count
      (active_nodes (nodes db) ≫= λ n,
         (λ k, (n, k)) <$> filter (λ k, k = protocol_pk p) (Node_protocol_ids db n)) in
  let* rows := annotate (λ p, Subquery (nodes p)) qs in
  Returned (order_by by_active_nodes (filter (λ r, gt0 r.2) rows)).

(** What the two [..._today] resolvers hand back: the empty queryset of
    [Stat.objects.none()], or the row or [None] of [.first()]. *)
Inductive today_result :=
  | QuerySet (rows : list Stat)
  | Row (row : option Stat).

Definition resolve_stats_platform_today (db : Database) (today : date)
    (kwargs : gmap string string) : outcome today_result :=
  let name := kwargs !! "name" in
  if negb (truthy name) then Returned (QuerySet [])
  else
    Returned (Row (first
      (join_filter (Stat_platform db) (λ p, Some (platform_name p) = name)
        (filter (λ s, stat_node s = None ∧ stat_protocol s = None ∧ stat_date s = today)
           (stats db))))).

Definition resolve_stats_protocol_today (db : Database) (today : date)
    (kwargs : gmap string string) : outcome today_result :=
  let name := kwargs !! "name" in
  if negb (truthy name) then Returned (QuerySet [])
  else
    Returned (Row (first
      (join_filter (Stat_protocol db) (λ p, Some (protocol_name p) = name)
        (filter (λ s, stat_node s = None ∧ stat_platform s = None ∧ stat_date s = today)
           (stats db))))).

(** The count of [stats_users_active_ratio] is a floating-point quotient;
    the row keeps its two operands, [Sum('users_monthly')] and
    [Sum('users_total')], and the query fails with the database's division
    by zero when the second is zero for some date. *)
Definition resolve_stats_users_active_ratio (db : Database) (kwargs : gmap string string)
    : outcome (list (date * (option Z * option Z))) :=
  let* qs :=
    if truthy (kwargs !! "value") && truthy (kwargs !! "itemType") then
      if bool_decide (kwargs !! "itemType" = Some "platform") then
        Returned (filter_node__platform__name db (kwargs !! "value"))
      else if bool_decide (kwargs !! "itemType" = Some "protocol") then
        Returned (filter_node__protocols__name db (kwargs !! "value"))
      else if bool_decide (kwargs !! "itemType" = Some "node") then
        Returned (filter_node__host db (kwargs !! "value"))
      else Raised (ValueError itemType_message)
    else Returned (filter_node__isnull_False db) in
  evaluate_quotients
    (date_counts (λ rows, (Sum users_monthly rows, Sum users_total rows)) qs).

Definition resolve_stats_users_total (db : Database) (kwargs : gmap string string) :=
  _get_stat_date_counts db Users_total (kwargs !! "value") (kwargs !! "itemType").

Definition resolve_stats_users_half_year (db : Database) (kwargs : gmap string string) :=
  _get_stat_date_counts db Users_half_year (kwargs !! "value") (kwargs !! "itemType").

Definition resolve_stats_users_monthly (db : Database) (kwargs : gmap string string) :=
  _get_stat_date_counts db Users_monthly (kwargs !! "value") (kwargs !! "itemType").

(** The count of [stats_users_per_node] is [Avg('users_total')], kept as
    the operands of the average. *)
Definition resolve_stats_users_per_node (db : Database) (kwargs : gmap string string)
    : outcome (list (date * option (Z * Z))) :=
  let* qs :=
    if truthy (kwargs !! "value") && truthy (kwargs !! "itemType") then
      if bool_decide (kwargs !! "itemType" = Some "platform") then
        Returned (filter_node__platform__name db (kwargs !! "value"))
      else if bool_decide (kwargs !! "itemType" = Some "protocol") then
        Returned (filter_node__protocols__name db (kwargs !! "value"))
      else if bool_decide (kwargs !! "itemType" = Some "node") then
        Returned (filter_node__host db (kwargs !! "value"))
      else Raised (ValueError itemType_message)
    else Returned (filter_node__isnull_False db) in
  Returned (date_counts (Avg users_total) qs).

Definition resolve_stats_users_weekly (db : Database) (kwargs : gmap string string) :=
  _get_stat_date_counts db Users_weekly (kwargs !! "value") (kwargs !! "itemType").

Definition resolve_stats_local_posts (db : Database) (kwargs : gmap string string) :=
  _get_stat_date_counts db Local_posts (kwargs !! "value") (kwargs !! "itemType").

Definition resolve_stats_local_comments (db : Database) (kwargs : gmap string string) :=
  _get_stat_date_counts db Local_comments (kwargs !! "value") (kwargs !! "itemType").

End Query.

(** ** [config/local.py] *)

Module Local.

(** Modelled from the spec: [env], the environment reader that the base
    settings (declared outside this module) create and [from .base import *]
    brings in: the process environment, and the reader's own conversion of
    the text of a variable to a boolean. *)
Record Env := {
  environ : gmap string string;
  cast_bool : string → bool
}.

(** [env.bool(var, default=default)] *)
Definition env_bool (env : Env) (var : string) (default : bool) : bool :=
  match environ env !! var with
  | Some text => cast_bool env text
  | None => default
  end.

Definition testing (env : Env) (argv : list string) : bool :=
  env_bool env "CI" false || env_bool env "TEST" false || bool_decide ("test" ∈ argv).

(** The integer-valued names of the settings module: those that
    [from .base import *] brought in, then the assignments of this module in
    their order. *)
Definition settings (env : Env) (argv : list string) (base : gmap string Z) : gmap string Z :=
  let ns := <["EMAIL_PORT" := 1025]> base in
  if testing env argv then <["REDIS_DB" := 15]> ns else ns.

End Local.

(** ** Lookups that may compare with [None] *)

(** LEFT OUTER JOIN: the related rows of a row, or a single all-NULL row
    when there is none, or when the row is itself all-NULL. *)
Definition left_join {A B} (rel : A → list B) (a : option A) : list (option B) :=
  match a with
  | Some a =>
      match rel a with
      | [] => [None]
      | bs => Some <$> bs
      end
  | None => [None]
  end.

(** [qs.filter(path__col=value)] for a [value] that may be [None].  [cols]
    gives the column on the rows joined along the path, outer joins and NULL
    for a missing row; [col = None] reads [col IS NULL].  A row is kept once
    for every joined row that satisfies the condition.  (With a value, the
    ORM uses inner joins, which keep the same rows.) *)
Definition lookup_filter {A} (cols : A → list (option string)) (value : option string)
    (l : list A) : list A :=
  l ≫= λ a, (λ _, a) <$> filter (λ c, c = value) (cols a).

(** The columns behind [node__platform__name], [node__protocols__name] and
    [node__host] for a stat row. *)
Definition node__platform__name (db : Database) (s : Stat) : list (option string) :=
  left_join (Stat_node db) (Some s) ≫= λ n : option Node,
    (λ p : option Platform, platform_name <$> p) <$> left_join (Node_platform db) n.

Definition node__protocols__name (db : Database) (s : Stat) : list (option string) :=
  left_join (Stat_node db) (Some s) ≫= λ n : option Node,
    left_join (Node_protocol_ids db) n ≫= λ k : option Z,
      (λ p : option Protocol, protocol_name <$> p)
        <$> left_join (λ k, filter (λ p, protocol_pk p = k) (protocols db)) k.

Definition node__host (db : Database) (s : Stat) : list (option string) :=
  (λ n : option Node, host <$> n) <$> left_join (Stat_node db) (Some s).

(** ** [thefederation/schema.py]: the resolvers of [Query] that return stat rows *)

Module Query_rows.

Definition resolve_stats (db : Database) (kwargs : gmap string string) : list Stat :=
  stats db.

(** The three [filter] calls are taken one after the other; the join to the
    node of the second is the one of the first, a primary key naming one
    row. *)
Definition resolve_stats_nodes (db : Database) (today : date) (kwargs : gmap string string)
    : list Stat :=
  let '(item_type, value) :=
    if truthy (kwargs !! "itemType") then (kwargs !! "itemType", kwargs !! "value")
    else if truthy (kwargs !! "platform") then (Some "platform", kwargs !! "platform")
    else if truthy (kwargs !! "protocol") then (Some "protocol", kwargs !! "protocol")
    else (None, None) in
  let qs :=
    if bool_decide (item_type = Some "platform") then
      lookup_filter (node__platform__name db) value (stats db)
    else if bool_decide (item_type = Some "protocol") then
      lookup_filter (node__protocols__name db) value (stats db)
    else stats db in
  let qs :=
    if truthy (kwargs !! "host") then lookup_filter (node__host db) (kwargs !! "host") qs
    else qs in
  filter (λ s, stat_date s = today ∧ stat_node s ≠ None
               ∧ stat_protocol s = None ∧ stat_platform s = None) qs.

End Query_rows.

(** ** [config/local.py]: the switches of the development settings *)

Module Development.

(** [DEBUG] *)
Definition DEBUG (env : Local.Env) : bool := Local.env_bool env "DJANGO_DEBUG" true.

(** [TEMPLATES[0]["OPTIONS"]["debug"]] *)
Definition TEMPLATES_debug (env : Local.Env) : bool :=
  if Local.env_bool env "CI" false then true else DEBUG env.

(** [DEBUG_TOOLBAR_ENABLED]; the name is bound only inside the [if], and
    [None] stands for a name that the base settings did not bind either. *)
Definition DEBUG_TOOLBAR_ENABLED (env : Local.Env) (base : option bool) : option bool :=
  if Local.env_bool env "DJANGO_DEBUG_TOOLBAR" true then Some true else base.

(** [MIDDLEWARE], from the tuple of the base settings. *)
Definition MIDDLEWARE (env : Local.Env) (base : list string) : list string :=
  let mw :=
    if Local.env_bool env "DJANGO_DEBUG_TOOLBAR" true then
      base ++ ["debug_toolbar.middleware.DebugToolbarMiddleware"]
    else base in
  mw ++ ["querycount.middleware.QueryCountMiddleware"].

(** [INSTALLED_APPS], from the tuple of the base settings. *)
Definition INSTALLED_APPS (env : Local.Env) (base : list string) : list string :=
  if Local.env_bool env "DJANGO_DEBUG_TOOLBAR" true then
    base ++ ["debug_toolbar"; "debug_toolbar_user_panel"]
  else base.

End Development.

(** ** The vocabulary of the specification *)

(** The recognised item types and the text that selects each. *)
Inductive item :=
  | ItemPlatform
  | ItemProtocol
  | ItemNode.

Definition item_name (i : item) : string :=
  match i with
  | ItemPlatform => "platform"
  | ItemProtocol => "protocol"
  | ItemNode => "node"
  end.

(** A stat row is in the scope of an item when it belongs to a node and
    that node runs the platform of that name, speaks the protocol of that
    name, or has that host. *)
Definition in_scope (db : Database) (i : item) (value : string) (s : Stat) : Prop :=
  ∃ n, n ∈ nodes db ∧ stat_node s = Some (node_pk n) ∧
    match i with
    | ItemPlatform =>
        ∃ p, p ∈ platforms db ∧ platform_pk p = node_platform n ∧ platform_name p = value
    | ItemProtocol =>
        ∃ p, p ∈ protocols db ∧ (node_pk n, protocol_pk p) ∈ node_protocols db
             ∧ protocol_name p = value
    | ItemNode => host n = value
    end.

(** The queryset a recognised item type selects. *)
Definition scope_rows (db : Database) (i : item) (value : option string) : list Stat :=
  match i with
  | ItemPlatform => Query.filter_node__platform__name db value
  | ItemProtocol => Query.filter_node__protocols__name db value
  | ItemNode => Query.filter_node__host db value
  end.

(** The rows of a series are computed from the stat rows that satisfy [P]:
    each comes from the rows of its date among them, and there is one. *)
Definition computed_from {C} (db : Database) (P : Stat → Prop)
    (agg : list Stat → C) (out : list (date * C)) : Prop :=
  ∀ d c, (d, c) ∈ out →
    ∃ group, group ≠ []
      ∧ (∀ s, s ∈ group ↔ s ∈ stats db ∧ stat_date s = d ∧ P s)
      ∧ c = agg group.

(** No date of a queryset has users_total summing to zero. *)
Definition no_zero_total (qs : list Stat) : Prop :=
  ∀ d, Sum users_total (filter (λ s, stat_date s = d) qs) ≠ Some 0.

(** The six resolvers built on [_get_stat_date_counts], by the column each
    sums. *)
Definition sum_resolver (m : metric)
    : Database → gmap string string → outcome (list (date * option Z)) :=
  match m with
  | Users_total => Query.resolve_stats_users_total
  | Users_half_year => Query.resolve_stats_users_half_year
  | Users_monthly => Query.resolve_stats_users_monthly
  | Users_weekly => Query.resolve_stats_users_weekly
  | Local_posts => Query.resolve_stats_local_posts
  | Local_comments => Query.resolve_stats_local_comments
  end.

(** The stat rows an aggregate resolver works on, for the [value] and
    [itemType] it was given: those of the item when both are given and the
    item type is recognised, and every stat row of a node when one of the
    two is not given. *)
Inductive selects (db : Database) (value item_type : option string) : list Stat → Prop :=
  | selects_item i v :
      value = Some v → v ≠ "" → item_type = Some (item_name i) →
      selects db value item_type (scope_rows db i value)
  | selects_every_node :
      truthy value && truthy item_type = false →
      selects db value item_type (filter (λ s, stat_node s ≠ None) (stats db)).

(** The rollup row of a platform, or of a protocol, for a day: the date is
    that day, the row names that platform (protocol) and its two other scope
    columns are NULL. *)
Definition is_platform_row (db : Database) (today : date) (name : string) (s : Stat) : Prop :=
  s ∈ stats db ∧ stat_date s = today
  ∧ stat_node s = None ∧ stat_protocol s = None
  ∧ ∃ p, p ∈ platforms db ∧ stat_platform s = Some (platform_pk p) ∧ platform_name p = name.

Definition is_protocol_row (db : Database) (today : date) (name : string) (s : Stat) : Prop :=
  s ∈ stats db ∧ stat_date s = today
  ∧ stat_node s = None ∧ stat_platform s = None
  ∧ ∃ p, p ∈ protocols db ∧ stat_protocol s = Some (protocol_pk p) ∧ protocol_name p = name.

(** [r] is the single row that satisfies [P]: a row that does, nothing
    only when no row does, and that very row when just one does. *)
Definition the_row (P : Stat → Prop) (r : option Stat) : Prop :=
  (∀ s, r = Some s → P s)
  ∧ (r = None → ∀ s, ¬ P s)
  ∧ (∀ s, P s → (∀ s', P s' → s' = s) → r = Some s).

(** The greatest [users_monthly] among the stat rows of a node for a day;
    NULL when the node has no such row, or none with the column filled in. *)
Definition users_today (db : Database) (today : date) (n : Node) : option Z :=
  Max users_monthly
    (filter (λ s, stat_node s = Some (node_pk n) ∧ stat_date s = today) (stats db)).

(** The stat rows that a node has for a day agree on [users_monthly]; so it
    is when a node has one row a day. *)
Definition one_count_per_node (db : Database) (today : date) : Prop :=
  Forall (λ s1, Forall (λ s2,
    is_Some (stat_node s1) → stat_node s1 = stat_node s2 →
    stat_date s1 = today → stat_date s2 = today →
    users_monthly s1 = users_monthly s2) (stats db)) (stats db).

(** The number of active nodes of a platform. *)
Definition platform_active_nodes (db : Database) (p : Platform) : Z :=
  Z.of_nat (length (filter (λ n, node_platform n = platform_pk p) (active_nodes (nodes db)))).

(** The number of active nodes of a protocol, one for each row of the
    many-to-many table that links an active node to it. *)
Definition protocol_active_nodes (db : Database) (p : Protocol) : Z :=
  Z.of_nat (length (active_nodes (nodes db) ≫= λ n,
                      filter (λ k, k = protocol_pk p) (Node_protocol_ids db n))).

(** A per-node row of a day: dated that day, with a node and without a
    platform or a protocol. *)
Definition per_node_today (today : date) (s : Stat) : Prop :=
  stat_date s = today ∧ stat_node s ≠ None
  ∧ stat_protocol s = None ∧ stat_platform s = None.

(** The [host] argument, when given, is the host of the node of the row. *)
Definition host_matches (db : Database) (h : option string) (s : Stat) : Prop :=
  truthy h = true →
  ∃ n, n ∈ nodes db ∧ stat_node s = Some (node_pk n) ∧ Some (host n) = h.

(** The join from a stat row to the name of a protocol of its node comes up
    empty somewhere: the row has no node, or a node of it has no protocol,
    or a link of that node points to no protocol. *)
Definition no_protocol_name (db : Database) (s : Stat) : Prop :=
  Stat_node db s = []
  ∨ ∃ n, n ∈ Stat_node db s
      ∧ (Node_protocol_ids db n = []
         ∨ ∃ k, k ∈ Node_protocol_ids db n
             ∧ filter (λ p, protocol_pk p = k) (protocols db) = []).

(** What [resolve_nodes] asks of a node: it is active, it runs the platform
    of the given name or, when no platform is given, speaks the protocol of
    the given name, and it has the given host. *)
Definition node_selected (db : Database) (kwargs : gmap string string) (n : Node) : Prop :=
  n ∈ nodes db ∧ active n = true
  ∧ (if truthy (kwargs !! "platform") then
       ∃ p, p ∈ platforms db ∧ platform_pk p = node_platform n
            ∧ Some (platform_name p) = kwargs !! "platform"
     else if truthy (kwargs !! "protocol") then
       ∃ p, p ∈ protocols db ∧ (node_pk n, protocol_pk p) ∈ node_protocols db
            ∧ Some (protocol_name p) = kwargs !! "protocol"
     else True)
  ∧ (truthy (kwargs !! "host") = true → Some (host n) = kwargs !! "host").

(** SQL addition of two sums, where NULL is the sum of nothing. *)
Definition sql_add (a b : option Z) : option Z :=
  match a, b with
  | Some x, Some y => Some (x + y)
  | Some x, None => Some x
  | None, b => b
  end.

(** The same tables with other active flags on the nodes. *)
Definition with_active (f : Node → bool) (n : Node) : Node :=
  {| node_pk := node_pk n; host := host n; active := f n;
     node_platform := node_platform n |}.

Definition set_active (f : Node → bool) (db : Database) : Database :=
  {| platforms := platforms db; protocols := protocols db;
     nodes := with_active f <$> nodes db;
     node_protocols := node_protocols db; stats := stats db |}.

(** ** Sample data *)

Definition diaspora : Platform := {| platform_pk := 1; platform_name := "diaspora" |}.
Definition mastodon : Platform := {| platform_pk := 2; platform_name := "mastodon" |}.

Definition diaspora_protocol : Protocol := {| protocol_pk := 1; protocol_name := "diaspora" |}.
Definition activitypub : Protocol := {| protocol_pk := 2; protocol_name := "activitypub" |}.

Definition pod : Node :=
  {| node_pk := 1; host := "pod.example"; active := true; node_platform := 1 |}.
Definition social : Node :=
  {| node_pk := 2; host := "social.example"; active := true; node_platform := 2 |}.
Definition gone : Node :=
  {| node_pk := 3; host := "gone.example"; active := false; node_platform := 1 |}.

(** A per-node snapshot with the same number in every column but
    [users_monthly]. *)
Definition snapshot (pk : Z) (d : date) (node : Z) (monthly count : Z) : Stat :=
  {| stat_pk := pk; stat_date := d; stat_node := Some node;
     stat_platform := None; stat_protocol := None;
     users_total := Some count; users_half_year := Some count;
     users_monthly := Some monthly; users_weekly := Some count;
     local_posts := Some count; local_comments := Some count |}.

(** A rollup row of a platform, as [stats_platform_today] looks for. *)
Definition platform_rollup (pk : Z) (d : date) (platform : Z) (count : Z) : Stat :=
  {| stat_pk := pk; stat_date := d; stat_node := None;
     stat_platform := Some platform; stat_protocol := None;
     users_total := Some count; users_half_year := Some count;
     users_monthly := Some count; users_weekly := Some count;
     local_posts := Some count; local_comments := Some count |}.

Definition protocol_rollup (pk : Z) (d : date) (protocol : Z) (count : Z) : Stat :=
  {| stat_pk := pk; stat_date := d; stat_node := None;
     stat_platform := None; stat_protocol := Some protocol;
     users_total := Some count; users_half_year := Some count;
     users_monthly := Some count; users_weekly := Some count;
     local_posts := Some count; local_comments := Some count |}.

Definition jan (d : Z) : date := Date 2024 1 d.

(** Three days of one node, ten users each day; the table is not in date
    order. *)
Definition series_db : Database :=
  {| platforms := [diaspora; mastodon];
     protocols := [diaspora_protocol; activitypub];
     nodes := [pod; social; gone];
     node_protocols := [(1, 1); (2, 2); (3, 1)];
     stats := [snapshot 1 (jan 3) 1 4 10; snapshot 2 (jan 1) 1 4 10;
               snapshot 3 (jan 2) 1 4 10] |}.

(** One day on which the one node counts no user at all. *)
Definition idle_db : Database :=
  {| platforms := [diaspora]; protocols := [diaspora_protocol];
     nodes := [pod]; node_protocols := [(1, 1)];
     stats := [snapshot 1 (jan 1) 1 0 0] |}.

(** Two active nodes with 5 and 50 monthly users today (3 January), an
    inactive one with 70, and the rollup rows of the day. *)
Definition nodes_db : Database :=
  {| platforms := [diaspora; mastodon];
     protocols := [diaspora_protocol; activitypub];
     nodes := [pod; social; gone];
     node_protocols := [(1, 1); (2, 2); (3, 1)];
     stats := [snapshot 1 (jan 3) 1 5 10; snapshot 2 (jan 3) 2 50 60;
               snapshot 3 (jan 3) 3 70 80; snapshot 4 (jan 2) 1 90 95;
               platform_rollup 5 (jan 3) 1 15; protocol_rollup 6 (jan 3) 2 60] |}.

(** * Properties *)

(** ** The [outcome] monad *)

Section outcome_facts.
Context {A B : Type}.
Implicit Types (f : A → outcome B) (l : list A).

Lemma outcome_mapM_Returned f l bs :
  outcome_mapM f l = Returned bs → Forall2 (λ a b, f a = Returned b) l bs.
Proof.
  revert bs. induction l as [|a l IH]; intros bs; simpl.
  - intros [= <-]. constructor.
  - destruct (f a) as [b|e] eqn:Hfa; simpl; [|done].
    destruct (outcome_mapM f l) as [bs'|e] eqn:Hl; simpl; [|done].
    intros [= <-]. constructor; [done | by apply IH].
Qed.

Lemma outcome_mapM_total f (g : A → B) l :
  (∀ a, a ∈ l → f a = Returned (g a)) → outcome_mapM f l = Returned (g <$> l).
Proof.
  induction l as [|a l IH]; intros Hf; simpl; [done|].
  rewrite (Hf a) by left. simpl.
  rewrite IH; [done|]. intros a' Ha'. apply Hf. by right.
Qed.
End outcome_facts.

Lemma annotate_Returned {A C} (sub : A → outcome C) (qs : list A) rows :
  annotate sub qs = Returned rows →
  ∀ r, r ∈ rows → r.1 ∈ qs ∧ sub r.1 = Returned r.2.
Proof.
  unfold annotate. intros Hm%outcome_mapM_Returned.
  induction Hm as [|a r qs rows Har _ IH]; intros r' Hr'.
  - by apply elem_of_nil in Hr'.
  - apply elem_of_cons in Hr' as [->|Hr'].
    + destruct (sub a) as [c|e] eqn:Hsub; simpl in Har; [|done].
      injection Har as <-. simpl. split; [left | done].
    + destruct (IH _ Hr') as [? ?]. split; [by right | done].
Qed.

Lemma annotate_total {A C} (sub : A → outcome C) (col : A → C) (qs : list A) :
  (∀ a, a ∈ qs → sub a = Returned (col a)) →
  annotate sub qs = Returned ((λ a, (a, col a)) <$> qs).
Proof.
  intros Hsub. unfold annotate. apply outcome_mapM_total.
  intros a Ha. by rewrite (Hsub a Ha).
Qed.

(** ** Orderings *)

Lemma date_le_spec (a b : date) :
  date_le a b ↔
  year a < year b ∨
  (year a = year b ∧ (month a < month b ∨ (month a = month b ∧ day a ≤ day b))).
Proof.
  unfold date_le, date_leb.
  rewrite orb_true_iff, andb_true_iff, orb_true_iff, andb_true_iff.
  rewrite !Z.ltb_lt, !Z.eqb_eq, Z.leb_le. tauto.
Qed.

#[global] Instance date_le_transitive : Transitive date_le.
Proof. intros a b c. rewrite !date_le_spec. lia. Qed.

#[global] Instance date_le_total : Total date_le.
Proof. intros a b. rewrite !date_le_spec. lia. Qed.

#[global] Instance date_le_antisymm : AntiSymm (=) date_le.
Proof.
  intros [y1 m1 d1] [y2 m2 d2]. rewrite !date_le_spec. simpl.
  intros H1 H2. f_equal; lia.
Qed.

#[global] Instance by_date_transitive {C} : Transitive (@by_date C).
Proof. intros r1 r2 r3. unfold by_date. apply transitivity. Qed.

#[global] Instance by_date_total {C} : Total (@by_date C).
Proof. intros r1 r2. unfold by_date. apply total, _. Qed.

#[global] Instance desc_nulls_last_transitive : Transitive desc_nulls_last.
Proof. intros [x|] [y|] [z|]; simpl; try done. lia. Qed.

#[global] Instance desc_nulls_last_total : Total desc_nulls_last.
Proof. intros [x|] [y|]; simpl; try tauto. lia. Qed.

#[global] Instance desc_transitive : Transitive desc.
Proof. intros [x|] [y|] [z|]; simpl; try done. lia. Qed.

#[global] Instance desc_total : Total desc.
Proof. intros [x|] [y|]; simpl; try tauto. lia. Qed.

#[global] Instance by_users_transitive : Transitive by_users.
Proof. intros r1 r2 r3. unfold by_users. apply transitivity. Qed.

#[global] Instance by_users_total : Total by_users.
Proof. intros r1 r2. unfold by_users. apply total, _. Qed.

#[global] Instance by_active_nodes_transitive {A} : Transitive (@by_active_nodes A).
Proof. intros r1 r2 r3. unfold by_active_nodes. apply transitivity. Qed.

#[global] Instance by_active_nodes_total {A} : Total (@by_active_nodes A).
Proof. intros r1 r2. unfold by_active_nodes. apply total, _. Qed.

Section order_by_facts.
Context {A : Type} (R : relation A) `{∀ x y, Decision (R x y)}.

Lemma order_by_Permutation (qs : list A) : order_by R qs ≡ₚ qs.
Proof. apply merge_sort_Permutation. Qed.

Lemma elem_of_order_by (qs : list A) (x : A) : x ∈ order_by R qs ↔ x ∈ qs.
Proof. by rewrite order_by_Permutation. Qed.

Lemma order_by_sorted `{!Transitive R, !Total R} (qs : list A) :
  StronglySorted R (order_by R qs).
Proof. by apply StronglySorted_merge_sort. Qed.
End order_by_facts.

(** ** Grouping and joins *)

Lemma remove_dups_constant {K} `{EqDecision K} (l : list K) (k : K) :
  l ≠ [] → (∀ x, x ∈ l → x = k) → remove_dups l = [k].
Proof.
  induction l as [|x l IH]; [done|]. intros _ Hall. simpl.
  assert (x = k) as -> by (apply Hall; left).
  destruct (decide_rel (∈) k l) as [Hin|Hin].
  - apply IH; [intros ->; by apply elem_of_nil in Hin | intros z Hz; apply Hall; by right].
  - destruct l as [|y l]; [done|].
    assert (y = k) as -> by (apply Hall; right; left).
    destruct Hin. left.
Qed.

Lemma remove_dups_singleton {K} `{EqDecision K} (l : list K) (k : K) :
  remove_dups l = [k] → ∀ x, x ∈ l → x = k.
Proof.
  intros Hk x Hx. apply elem_of_remove_dups in Hx.
  rewrite Hk in Hx. by apply list_elem_of_singleton in Hx.
Qed.

Lemma filter_all {A} (P : A → Prop) `{∀ x, Decision (P x)} (l : list A) :
  (∀ x, x ∈ l → P x) → filter P l = l.
Proof.
  induction l as [|a l IH]; intros Hall; [done|].
  rewrite filter_cons_True by (apply Hall; left).
  f_equal. apply IH. intros x Hx. apply Hall. by right.
Qed.

Section values_annotate_facts.
Context {A K C : Type} `{EqDecision K}.
Implicit Types (key : A → K) (agg : list A → C) (qs : list A).

Lemma elem_of_values_annotate key agg qs k c :
  (k, c) ∈ values_annotate key agg qs ↔
  (∃ a, a ∈ qs ∧ key a = k) ∧ c = agg (filter (λ a, key a = k) qs).
Proof.
  unfold values_annotate. rewrite list_elem_of_fmap. split.
  - intros (k' & [= -> ->] & Hk'). split; [|done].
    apply elem_of_remove_dups, list_elem_of_fmap in Hk' as (a & -> & Ha). eauto.
  - intros [(a & Ha & <-) ->]. exists (key a). split; [done|].
    apply elem_of_remove_dups, list_elem_of_fmap. eauto.
Qed.

Lemma values_annotate_keys key agg qs :
  (values_annotate key agg qs).*1 = remove_dups (key <$> qs).
Proof.
  unfold values_annotate. rewrite <- list_fmap_compose.
  by rewrite <- (list_fmap_id (remove_dups _)) at 2.
Qed.


Lemma values_annotate_nil key agg : values_annotate key agg [] = [].
Proof. done. Qed.

(** A queryset whose rows all have the key [k] makes a single group. *)
Lemma values_annotate_constant key agg qs k :
  qs ≠ [] → (∀ a, a ∈ qs → key a = k) →
  values_annotate key agg qs = [(k, agg qs)].
Proof.
  intros Hne Hall. unfold values_annotate.
  rewrite (remove_dups_constant _ k).
  - simpl. by rewrite filter_all.
  - by destruct qs.
  - intros x (a & -> & Ha)%list_elem_of_fmap. by apply Hall.
Qed.

(** A queryset that makes a single group has the key of that group on
    all its rows. *)
Lemma values_annotate_singleton key agg qs k c :
  values_annotate key agg qs = [(k, c)] →
  (∀ a, a ∈ qs → key a = k) ∧ c = agg qs.
Proof.
  intros Hs.
  assert (remove_dups (key <$> qs) = [k]) as Hk.
  { rewrite <- values_annotate_keys with (agg := agg). by rewrite Hs. }
  assert (∀ a, a ∈ qs → key a = k) as Hall.
  { intros a Ha. apply (remove_dups_singleton _ _ Hk). by apply list_elem_of_fmap_2. }
  split; [done|].
  unfold values_annotate in Hs. rewrite Hk in Hs. simpl in Hs.
  injection Hs as <-. by rewrite filter_all.
Qed.
End values_annotate_facts.

Lemma elem_of_join_filter {A B} (rel : A → list B) (P : B → Prop)
    `{∀ b, Decision (P b)} (l : list A) (a : A) :
  a ∈ join_filter rel P l ↔ a ∈ l ∧ ∃ b, b ∈ rel a ∧ P b.
Proof.
  unfold join_filter. rewrite list_elem_of_bind. split.
  - intros (a' & Ha & Ha').
    apply list_elem_of_fmap in Ha as (b & -> & Hb).
    apply list_elem_of_filter in Hb as [? ?]. eauto.
  - intros (Ha & b & Hb & HP). exists a. split; [|done].
    apply list_elem_of_fmap. exists b. split; [done|].
    by apply list_elem_of_filter.
Qed.

(** ** Rows of a date series *)


Section date_counts_facts.
Context {C : Type}.
Implicit Types (agg : list Stat → C) (qs : list Stat).

(** One row per date that occurs in the queryset, carrying the aggregate
    of the rows of that date. *)
Lemma elem_of_date_counts agg qs d c :
  (d, c) ∈ Query.date_counts agg qs ↔
  (∃ s, s ∈ qs ∧ stat_date s = d) ∧ c = agg (filter (λ s, stat_date s = d) qs).
Proof.
  unfold Query.date_counts.
  by rewrite elem_of_order_by, elem_of_values_annotate.
Qed.



Lemma date_counts_group_nonempty agg qs d c :
  (d, c) ∈ Query.date_counts agg qs → filter (λ s, stat_date s = d) qs ≠ [].
Proof.
  intros [(s & Hs & Hd) _]%elem_of_date_counts Hnil.
  eapply (filter_nil_not_elem_of _ _ s); eauto.
Qed.
End date_counts_facts.

(** ** Scoping of the aggregate resolvers *)

Lemma truthy_Some (s : string) : truthy (Some s) = true ↔ s ≠ "".
Proof. simpl. by rewrite bool_decide_eq_true. Qed.

Lemma truthy_true (v : option string) : truthy v = true → ∃ s, v = Some s ∧ s ≠ "".
Proof. destruct v as [s|]; [|done]. intros ?%truthy_Some. eauto. Qed.

Lemma item_name_truthy (i : item) : truthy (Some (item_name i)) = true.
Proof. by destruct i. Qed.

Lemma elem_of_Stat_node db s n :
  n ∈ Stat_node db s ↔ n ∈ nodes db ∧ stat_node s = Some (node_pk n).
Proof.
  unfold Stat_node. destruct (stat_node s) as [k|].
  - rewrite list_elem_of_filter. naive_solver.
  - split; [by intros ?%elem_of_nil | naive_solver].
Qed.

Lemma elem_of_Node_platform db n p :
  p ∈ Node_platform db n ↔ p ∈ platforms db ∧ platform_pk p = node_platform n.
Proof. unfold Node_platform. rewrite list_elem_of_filter. naive_solver. Qed.

Lemma elem_of_Node_protocol_ids db n k :
  k ∈ Node_protocol_ids db n ↔ (node_pk n, k) ∈ node_protocols db.
Proof.
  unfold Node_protocol_ids. rewrite list_elem_of_fmap. split.
  - intros ([nk k'] & -> & [Hnk ?]%list_elem_of_filter). simpl in *. by subst.
  - intros Hin. exists (node_pk n, k). split; [done|].
    by apply list_elem_of_filter.
Qed.

Lemma elem_of_Node_protocols db n p :
  p ∈ Node_protocols db n ↔
  p ∈ protocols db ∧ (node_pk n, protocol_pk p) ∈ node_protocols db.
Proof.
  unfold Node_protocols. rewrite list_elem_of_bind. split.
  - intros (k & [-> ?]%list_elem_of_filter & Hk%elem_of_Node_protocol_ids). done.
  - intros [Hp Hk]. exists (protocol_pk p). split.
    + by apply list_elem_of_filter.
    + by apply elem_of_Node_protocol_ids.
Qed.

(** The queryset of a recognised item type holds the stat rows in its
    scope, and no other. *)
Lemma elem_of_scope_rows db i v s :
  s ∈ scope_rows db i (Some v) ↔ s ∈ stats db ∧ in_scope db i v s.
Proof.
  unfold in_scope. destruct i; simpl.
  - unfold Query.filter_node__platform__name. rewrite elem_of_join_filter.
    setoid_rewrite list_elem_of_bind. setoid_rewrite elem_of_Node_platform.
    setoid_rewrite elem_of_Stat_node. naive_solver.
  - unfold Query.filter_node__protocols__name. rewrite elem_of_join_filter.
    setoid_rewrite list_elem_of_bind. setoid_rewrite elem_of_Node_protocols.
    setoid_rewrite elem_of_Stat_node. naive_solver.
  - unfold Query.filter_node__host. rewrite elem_of_join_filter.
    setoid_rewrite elem_of_Stat_node. naive_solver.
Qed.

Lemma elem_of_filter_node__isnull_False db s :
  s ∈ Query.filter_node__isnull_False db ↔ s ∈ stats db ∧ stat_node s ≠ None.
Proof. unfold Query.filter_node__isnull_False. rewrite list_elem_of_filter. tauto. Qed.

(** A series over a queryset is computed from the rows of that queryset. *)
Lemma date_counts_computed_from {C} db (P : Stat → Prop) (agg : list Stat → C) qs :
  (∀ s, s ∈ qs ↔ s ∈ stats db ∧ P s) →
  computed_from db P agg (Query.date_counts agg qs).
Proof.
  intros Hqs d c Hdc. exists (filter (λ s, stat_date s = d) qs). split; [|split].
  - by eapply date_counts_group_nonempty.
  - intros s. rewrite list_elem_of_filter, Hqs. tauto.
  - by apply elem_of_date_counts in Hdc as [_ ?].
Qed.

(** ** Quotients *)

Section quotient_facts.
Context {K : Type}.
Implicit Types (rows out : list (K * (option Z * option Z))).

Lemma evaluate_quotients_total rows :
  (∀ r, r ∈ rows → ¬ zero_divisor r.2) → evaluate_quotients rows = Returned rows.
Proof.
  intros Hrows. unfold evaluate_quotients.
  rewrite (outcome_mapM_total _ id).
  - by rewrite list_fmap_id.
  - intros [k ops] Hr. unfold float_quotient.
    by rewrite decide_False by (by apply (Hrows (k, ops))).
Qed.

Lemma evaluate_quotients_Returned rows out :
  evaluate_quotients rows = Returned out →
  out = rows ∧ ∀ r, r ∈ rows → ¬ zero_divisor r.2.
Proof.
  unfold evaluate_quotients. intros Hm%outcome_mapM_Returned.
  induction Hm as [|[k ops] r rows out Hr _ [-> IH]]; [split; [done|]|].
  - by intros r ?%elem_of_nil.
  - unfold float_quotient in Hr. simpl in Hr.
    destruct (decide (zero_divisor ops)) as [|Hno]; simpl in Hr; [done|].
    injection Hr as <-. split; [done|].
    intros r [->|Hr]%elem_of_cons; [done | by apply IH].
Qed.

Lemma evaluate_quotients_Raised rows e :
  evaluate_quotients rows = Raised e →
  e = DatabaseError "division by zero" ∧ ∃ r, r ∈ rows ∧ zero_divisor r.2.
Proof.
  unfold evaluate_quotients. induction rows as [|[k ops] rows IH]; simpl; [done|].
  unfold float_quotient at 1. simpl.
  destruct (decide (zero_divisor ops)) as [Hzero|Hno]; simpl.
  - intros [= <-]. split; [done|]. exists (k, ops). split; [left | done].
  - destruct (outcome_mapM _ rows) as [out|e'] eqn:Hrows; simpl; [done|].
    intros [= <-]. destruct (IH eq_refl) as [-> (r & Hr & Hzero)].
    split; [done|]. exists r. split; [by right | done].
Qed.
End quotient_facts.

(** The operands that the ratio series carries for a queryset. *)
Lemma ratio_operands (qs : list Stat) r :
  r ∈ Query.date_counts (λ rows, (Sum users_monthly rows, Sum users_total rows)) qs →
  r.2.2 = Sum users_total (filter (λ s, stat_date s = r.1) qs).
Proof. destruct r as [d [a b]]. by intros [_ [= _ ->]]%elem_of_date_counts. Qed.

Lemma ratio_returns (qs : list Stat) :
  no_zero_total qs →
  evaluate_quotients
    (Query.date_counts (λ rows, (Sum users_monthly rows, Sum users_total rows)) qs)
  = Returned (Query.date_counts (λ rows, (Sum users_monthly rows, Sum users_total rows)) qs).
Proof.
  intros Hqs. apply evaluate_quotients_total. intros r Hr%ratio_operands [_ Hzero].
  apply (Hqs r.1). by rewrite <- Hr.
Qed.

Lemma ratio_raises (qs : list Stat) e :
  evaluate_quotients
    (Query.date_counts (λ rows, (Sum users_monthly rows, Sum users_total rows)) qs)
  = Raised e →
  e = DatabaseError "division by zero"
  ∧ ∃ d, Sum users_total (filter (λ s, stat_date s = d) qs) = Some 0.
Proof.
  intros [-> (r & Hr%ratio_operands & _ & Hzero)]%evaluate_quotients_Raised.
  split; [done|]. exists r.1. by rewrite <- Hr.
Qed.

(** The three copies of the scoping code take the same three ways. *)
Ltac scoping_cases :=
  repeat match goal with
    | |- context [bool_decide ?P] => destruct (bool_decide_reflect P); simplify_eq
    end;
  try done.

Section scoping.
Variable db : Database.

Lemma get_stat_date_counts_scoped m i v :
  v ≠ "" →
  Query._get_stat_date_counts db m (Some v) (Some (item_name i))
  = Returned (Query.date_counts (Sum (column m)) (scope_rows db i (Some v))).
Proof.
  intros Hv%truthy_Some. unfold Query._get_stat_date_counts.
  rewrite Hv, item_name_truthy. destruct i; simpl; scoping_cases.
Qed.

Lemma get_stat_date_counts_unscoped m v t :
  truthy v && truthy t = false →
  Query._get_stat_date_counts db m v t
  = Returned (Query.date_counts (Sum (column m)) (Query.filter_node__isnull_False db)).
Proof. intros Hvt. unfold Query._get_stat_date_counts. by rewrite Hvt. Qed.

Lemma get_stat_date_counts_unrecognised m v t :
  truthy v = true → truthy t = true → (∀ i, t ≠ Some (item_name i)) →
  Query._get_stat_date_counts db m v t = Raised (ValueError Query.itemType_message).
Proof.
  intros Hv Ht Hi. unfold Query._get_stat_date_counts. rewrite Hv, Ht. simpl.
  pose proof (Hi ItemPlatform). pose proof (Hi ItemProtocol). pose proof (Hi ItemNode).
  scoping_cases.
Qed.

Lemma sum_resolver_eq m kwargs :
  sum_resolver m db kwargs
  = Query._get_stat_date_counts db m (kwargs !! "value") (kwargs !! "itemType").
Proof. by destruct m. Qed.

Lemma active_ratio_scoped (kwargs : gmap string string) i v :
  kwargs !! "itemType" = Some (item_name i) → kwargs !! "value" = Some v → v ≠ "" →
  Query.resolve_stats_users_active_ratio db kwargs
  = evaluate_quotients
      (Query.date_counts (λ rows, (Sum users_monthly rows, Sum users_total rows))
         (scope_rows db i (Some v))).
Proof.
  intros Hi Hv Hne%truthy_Some. unfold Query.resolve_stats_users_active_ratio.
  rewrite Hi, Hv, Hne, item_name_truthy. destruct i; simpl; scoping_cases.
Qed.

Lemma active_ratio_unscoped (kwargs : gmap string string) :
  truthy (kwargs !! "value") && truthy (kwargs !! "itemType") = false →
  Query.resolve_stats_users_active_ratio db kwargs
  = evaluate_quotients
      (Query.date_counts (λ rows, (Sum users_monthly rows, Sum users_total rows))
         (Query.filter_node__isnull_False db)).
Proof. intros Hvt. unfold Query.resolve_stats_users_active_ratio. by rewrite Hvt. Qed.

Lemma active_ratio_unrecognised (kwargs : gmap string string) :
  truthy (kwargs !! "value") = true → truthy (kwargs !! "itemType") = true →
  (∀ i, kwargs !! "itemType" ≠ Some (item_name i)) →
  Query.resolve_stats_users_active_ratio db kwargs
  = Raised (ValueError Query.itemType_message).
Proof.
  intros Hv Ht Hi. unfold Query.resolve_stats_users_active_ratio. rewrite Hv, Ht. simpl.
  pose proof (Hi ItemPlatform). pose proof (Hi ItemProtocol). pose proof (Hi ItemNode).
  scoping_cases.
Qed.

Lemma users_per_node_scoped (kwargs : gmap string string) i v :
  kwargs !! "itemType" = Some (item_name i) → kwargs !! "value" = Some v → v ≠ "" →
  Query.resolve_stats_users_per_node db kwargs
  = Returned (Query.date_counts (Avg users_total) (scope_rows db i (Some v))).
Proof.
  intros Hi Hv Hne%truthy_Some. unfold Query.resolve_stats_users_per_node.
  rewrite Hi, Hv, Hne, item_name_truthy. destruct i; simpl; scoping_cases.
Qed.

Lemma users_per_node_unscoped (kwargs : gmap string string) :
  truthy (kwargs !! "value") && truthy (kwargs !! "itemType") = false →
  Query.resolve_stats_users_per_node db kwargs
  = Returned (Query.date_counts (Avg users_total) (Query.filter_node__isnull_False db)).
Proof. intros Hvt. unfold Query.resolve_stats_users_per_node. by rewrite Hvt. Qed.

Lemma users_per_node_unrecognised (kwargs : gmap string string) :
  truthy (kwargs !! "value") = true → truthy (kwargs !! "itemType") = true →
  (∀ i, kwargs !! "itemType" ≠ Some (item_name i)) →
  Query.resolve_stats_users_per_node db kwargs
  = Raised (ValueError Query.itemType_message).
Proof.
  intros Hv Ht Hi. unfold Query.resolve_stats_users_per_node. rewrite Hv, Ht. simpl.
  pose proof (Hi ItemPlatform). pose proof (Hi ItemProtocol). pose proof (Hi ItemNode).
  scoping_cases.
Qed.
End scoping.

(** ** Sums *)



Lemma not_recognised (t : string) :
  t ∉ ["platform"; "protocol"; "node"] → ∀ i, Some t ≠ Some (item_name i).
Proof. intros Ht i [= ->]. apply Ht. destruct i; simpl; set_solver. Qed.

Lemma not_both (v t : option string) :
  (v = None ∨ v = Some "") ∨ (t = None ∨ t = Some "") → truthy v && truthy t = false.
Proof. intros [[-> | ->] | [-> | ->]]; simpl; try done; by rewrite andb_false_r. Qed.

(** ** The claims on the aggregate resolvers *)

(** C1, as amended: when a non-empty [value] comes with a non-empty
    [itemType] that is none of "platform", "protocol" and "node", the shared
    helper, the six resolvers built on it, [stats_users_active_ratio] and
    [stats_users_per_node] all raise the value error. *)
Theorem unrecognised_itemType_raises (db : Database) (kwargs : gmap string string)
    (v t : string) :
  kwargs !! "value" = Some v → v ≠ "" →
  kwargs !! "itemType" = Some t → t ≠ "" →
  t ∉ ["platform"; "protocol"; "node"] →
  (∀ m, Query._get_stat_date_counts db m (Some v) (Some t)
        = Raised (ValueError Query.itemType_message))
  ∧ (∀ m, sum_resolver m db kwargs = Raised (ValueError Query.itemType_message))
  ∧ Query.resolve_stats_users_active_ratio db kwargs
    = Raised (ValueError Query.itemType_message)
  ∧ Query.resolve_stats_users_per_node db kwargs
    = Raised (ValueError Query.itemType_message).
Proof.
  intros Hv Hv'%truthy_Some Ht Ht'%truthy_Some Hout.
  pose proof (not_recognised t Hout) as Hrec.
  assert (∀ m, Query._get_stat_date_counts db m (Some v) (Some t)
               = Raised (ValueError Query.itemType_message)) as Hhelper.
  { intros m. by apply get_stat_date_counts_unrecognised. }
  split; [done|]. split; [|split].
  - intros m. by rewrite sum_resolver_eq, Hv, Ht.
  - apply active_ratio_unrecognised; by rewrite ?Hv, ?Ht.
  - apply users_per_node_unrecognised; by rewrite ?Hv, ?Ht.
Qed.

Lemma unrecognised_itemType_raises_witness :
  Query.resolve_stats_users_active_ratio series_db
    {[ "itemType" := "server"; "value" := "diaspora" ]}
  = Raised (ValueError Query.itemType_message).
Proof.
  refine (proj1 (proj2 (proj2
    (unrecognised_itemType_raises series_db
       ({[ "itemType" := "server"; "value" := "diaspora" ]}) "diaspora" "server"
       _ _ _ _ _)))).
  - reflexivity.
  - discriminate.
  - reflexivity.
  - discriminate.
  - apply (bool_decide_unpack _). vm_compute. exact I.
Defined.

(** C1, as stated, fails: an [itemType] that is none of the three, given
    without a [value], raises nothing; the resolvers hand back the unscoped
    series. *)
Lemma unrecognised_itemType_alone_returns :
  let kwargs : gmap string string := {[ "itemType" := "server" ]} in
  kwargs !! "itemType" = Some "server"
  ∧ ("server" ∉ ["platform"; "protocol"; "node"])
  ∧ Query.resolve_stats_users_total series_db kwargs
    = Returned [(jan 1, Some 10); (jan 2, Some 10); (jan 3, Some 10)]
  ∧ Query.resolve_stats_users_active_ratio series_db kwargs
    = Returned [(jan 1, (Some 4, Some 10)); (jan 2, (Some 4, Some 10));
                (jan 3, (Some 4, Some 10))]
  ∧ Query.resolve_stats_users_per_node series_db kwargs
    = Returned [(jan 1, Some (10, 1)); (jan 2, Some (10, 1)); (jan 3, Some (10, 1))].
Proof.
  split; [reflexivity|]. split; [|by vm_compute].
  apply (bool_decide_unpack _). vm_compute. exact I.
Qed.

(** C2, as amended: for each recognised [itemType] paired with a non-empty
    [value], every row that one of the eight scoped aggregate resolvers
    returns is computed from the stat rows of that date in the scope of the
    item: those of a node whose platform name, protocol name or host is the
    value.  The six sum resolvers and [stats_users_per_node] always return;
    [stats_users_active_ratio] returns when no date in the scope has
    users_total summing to zero, and raises nothing but the division by zero
    of the database. *)
Theorem scoped_series_computed_from_scope (db : Database) (kwargs : gmap string string)
    (i : item) (v : string) :
  kwargs !! "itemType" = Some (item_name i) →
  kwargs !! "value" = Some v → v ≠ "" →
  (∀ m, ∃ out, sum_resolver m db kwargs = Returned out
               ∧ computed_from db (in_scope db i v) (Sum (column m)) out)
  ∧ (∀ out, Query.resolve_stats_users_active_ratio db kwargs = Returned out →
       computed_from db (in_scope db i v)
         (λ rows, (Sum users_monthly rows, Sum users_total rows)) out)
  ∧ (no_zero_total (scope_rows db i (Some v)) →
       ∃ out, Query.resolve_stats_users_active_ratio db kwargs = Returned out)
  ∧ (∀ e, Query.resolve_stats_users_active_ratio db kwargs = Raised e →
       e = DatabaseError "division by zero")
  ∧ (∃ out, Query.resolve_stats_users_per_node db kwargs = Returned out
            ∧ computed_from db (in_scope db i v) (Avg users_total) out).
Proof.
  intros Hi Hv Hne.
  pose proof (elem_of_scope_rows db i v) as Hscope.
  pose proof (active_ratio_scoped db kwargs i v Hi Hv Hne) as Hratio.
  split; [|split; [|split; [|split]]].
  - intros m. eexists. split.
    + rewrite sum_resolver_eq, Hi, Hv. by apply get_stat_date_counts_scoped.
    + by apply date_counts_computed_from.
  - intros out Hout. rewrite Hratio in Hout.
    apply evaluate_quotients_Returned in Hout as [-> _].
    by apply date_counts_computed_from.
  - intros Hzero. eexists. rewrite Hratio. by apply ratio_returns.
  - intros e He. rewrite Hratio in He. by apply ratio_raises in He as [-> _].
  - eexists. split; [by apply users_per_node_scoped|].
    by apply date_counts_computed_from.
Qed.

Lemma scoped_series_computed_from_scope_witness :
  ∃ out,
    Query.resolve_stats_users_per_node nodes_db
      {[ "itemType" := "platform"; "value" := "mastodon" ]} = Returned out
    ∧ computed_from nodes_db (in_scope nodes_db ItemPlatform "mastodon")
        (Avg users_total) out.
Proof.
  refine (proj2 (proj2 (proj2 (proj2
    (scoped_series_computed_from_scope nodes_db
       ({[ "itemType" := "platform"; "value" := "mastodon" ]}) ItemPlatform "mastodon"
       _ _ _))))).
  - reflexivity.
  - reflexivity.
  - discriminate.
Defined.

(** C2, as stated, fails for the empty value: paired with
    [itemType="platform"], the value "" selects no scope at all, and the
    series is the unscoped one, computed from rows of nodes whose platform
    is not named "". *)
Lemma empty_value_is_no_scope :
  let kwargs : gmap string string := {[ "itemType" := "platform"; "value" := "" ]} in
  kwargs !! "itemType" = Some (item_name ItemPlatform)
  ∧ kwargs !! "value" = Some ""
  ∧ Query.resolve_stats_users_total nodes_db kwargs
    = Returned [(jan 2, Some 95); (jan 3, Some 150)]
  ∧ ¬ computed_from nodes_db (in_scope nodes_db ItemPlatform "") (Sum users_total)
        [(jan 2, Some 95); (jan 3, Some 150)].
Proof.
  split; [reflexivity|]. split; [reflexivity|]. split; [by vm_compute|].
  intros Hfrom. destruct (Hfrom (jan 2) (Some 95)) as (group & Hne & Hgroup & _); [left|].
  destruct group as [|s group]; [done|].
  destruct (proj1 (Hgroup s)) as (_ & _ & n & _ & _ & p & Hp & _ & Hname); [left|].
  simpl in Hp. repeat (apply elem_of_cons in Hp as [->|Hp]; [discriminate|]).
  by apply elem_of_nil in Hp.
Qed.

(** C10, as amended: when [value] or [itemType] is missing or empty (an
    unrecognised [itemType] without a [value] included), the resolvers fall
    back to the stat rows that have a node and raise no value error.  The
    helper, the six resolvers built on it and [stats_users_per_node] raise
    nothing and return the series over those rows; so does
    [stats_users_active_ratio] when no date among them has users_total
    summing to zero, and it raises nothing but the division by zero of the
    database, on such a date. *)
Theorem unscoped_fallback (db : Database) (kwargs : gmap string string) :
  (kwargs !! "value" = None ∨ kwargs !! "value" = Some "")
  ∨ (kwargs !! "itemType" = None ∨ kwargs !! "itemType" = Some "") →
  let every_node := filter (λ s, stat_node s ≠ None) (stats db) in
  let ratio_series :=
    Query.date_counts (λ rows, (Sum users_monthly rows, Sum users_total rows)) every_node in
  (∀ m, Query._get_stat_date_counts db m (kwargs !! "value") (kwargs !! "itemType")
        = Returned (Query.date_counts (Sum (column m)) every_node))
  ∧ (∀ m, sum_resolver m db kwargs
          = Returned (Query.date_counts (Sum (column m)) every_node))
  ∧ Query.resolve_stats_users_per_node db kwargs
    = Returned (Query.date_counts (Avg users_total) every_node)
  ∧ (∀ out, Query.resolve_stats_users_active_ratio db kwargs = Returned out →
       out = ratio_series)
  ∧ (no_zero_total every_node →
       Query.resolve_stats_users_active_ratio db kwargs = Returned ratio_series)
  ∧ (∀ e, Query.resolve_stats_users_active_ratio db kwargs = Raised e →
       e = DatabaseError "division by zero"
       ∧ ∃ d, Sum users_total (filter (λ s, stat_date s = d) every_node) = Some 0).
Proof.
  intros Hvt%not_both. simpl.
  assert (∀ m, Query._get_stat_date_counts db m (kwargs !! "value") (kwargs !! "itemType")
               = Returned (Query.date_counts (Sum (column m))
                             (filter (λ s, stat_node s ≠ None) (stats db)))) as Hhelper.
  { intros m. by apply get_stat_date_counts_unscoped. }
  pose proof (active_ratio_unscoped db kwargs Hvt) as Hratio.
  unfold Query.filter_node__isnull_False in Hratio.
  split; [done|]. split; [|split; [|split; [|split]]].
  - intros m. by rewrite sum_resolver_eq.
  - by apply users_per_node_unscoped.
  - intros out Hout. rewrite Hratio in Hout.
    by apply evaluate_quotients_Returned in Hout as [-> _].
  - intros Hzero. rewrite Hratio. by apply ratio_returns.
  - intros e He. rewrite Hratio in He. by apply ratio_raises.
Qed.

Lemma unscoped_fallback_witness :
  Query.resolve_stats_users_per_node series_db {[ "itemType" := "server" ]}
  = Returned (Query.date_counts (Avg users_total)
                (filter (λ s, stat_node s ≠ None) (stats series_db))).
Proof.
  refine (proj1 (proj2 (proj2
    (unscoped_fallback series_db ({[ "itemType" := "server" ]}) _)))).
  left. left. reflexivity.
Defined.

(** C10, as stated, fails for [stats_users_active_ratio]: without arguments,
    on a table with a day on which users_total sums to zero, the fallback
    raises the division by zero of the database. *)
Lemma unscoped_ratio_divides_by_zero :
  let kwargs : gmap string string := ∅ in
  kwargs !! "value" = None
  ∧ Sum users_total (filter (λ s, stat_date s = jan 1)
                       (filter (λ s, stat_node s ≠ None) (stats idle_db))) = Some 0
  ∧ Query.resolve_stats_users_active_ratio idle_db kwargs
    = Raised (DatabaseError "division by zero").
Proof. split; [reflexivity|]. split; by vm_compute. Qed.

Lemma recognised_or_not (t : string) :
  (∃ i, t = item_name i) ∨ (∀ i, t ≠ item_name i).
Proof.
  destruct (decide (t = "platform")) as [->|?]; [left; by exists ItemPlatform|].
  destruct (decide (t = "protocol")) as [->|?]; [left; by exists ItemProtocol|].
  destruct (decide (t = "node")) as [->|?]; [left; by exists ItemNode|].
  right. by intros [].
Qed.

(** Whenever the helper returns, it returns the series over the rows that
    [selects] names. *)
Lemma get_stat_date_counts_Returned db m v t out :
  Query._get_stat_date_counts db m v t = Returned out →
  ∃ qs, selects db v t qs ∧ out = Query.date_counts (Sum (column m)) qs.
Proof.
  intros Hout.
  destruct (truthy v && truthy t) eqn:Hvt.
  - apply andb_true_iff in Hvt as [(s & -> & Hs)%truthy_true (t' & -> & Ht')%truthy_true].
    destruct (recognised_or_not t') as [[i ->]|Hno].
    + rewrite get_stat_date_counts_scoped in Hout by done.
      injection Hout as <-. exists (scope_rows db i (Some s)).
      split; [by eapply selects_item | done].
    + rewrite get_stat_date_counts_unrecognised in Hout; [done | by apply truthy_Some.. | ].
      intros i [= ->]. by apply (Hno i).
  - rewrite get_stat_date_counts_unscoped in Hout by done.
    injection Hout as <-. eexists. split; [by apply selects_every_node | done].
Qed.



(** ** Today's rollup rows *)

Lemma first_None (qs : list Stat) : first qs = None ↔ qs = [].
Proof.
  split; [|by intros ->].
  destruct qs as [|s qs]; [done|]. simpl.
  destruct (first qs); [by case_bool_decide | done].
Qed.

Lemma first_elem_of (qs : list Stat) (s : Stat) : first qs = Some s → s ∈ qs.
Proof.
  revert s. induction qs as [|a qs IH]; intros s; simpl; [done|].
  destruct (first qs) as [m|].
  - case_bool_decide; intros [= <-]; [left | right; by apply IH].
  - intros [= <-]. left.
Qed.

Lemma first_the_row (P : Stat → Prop) (qs : list Stat) :
  (∀ s, s ∈ qs ↔ P s) → the_row P (first qs).
Proof.
  intros Hqs. split; [|split].
  - intros s Hs. by apply Hqs, first_elem_of.
  - intros Hnone%first_None s Hs%Hqs. rewrite Hnone in Hs. by apply elem_of_nil in Hs.
  - intros s Hs Huniq. destruct (first qs) as [s'|] eqn:Hfirst.
    + f_equal. by apply Huniq, Hqs, first_elem_of.
    + apply first_None in Hfirst. apply Hqs in Hs. rewrite Hfirst in Hs.
      by apply elem_of_nil in Hs.
Qed.

Lemma elem_of_Stat_platform db s p :
  p ∈ Stat_platform db s ↔ p ∈ platforms db ∧ stat_platform s = Some (platform_pk p).
Proof.
  unfold Stat_platform. destruct (stat_platform s) as [k|].
  - rewrite list_elem_of_filter. naive_solver.
  - split; [by intros ?%elem_of_nil | naive_solver].
Qed.

Lemma elem_of_Stat_protocol db s p :
  p ∈ Stat_protocol db s ↔ p ∈ protocols db ∧ stat_protocol s = Some (protocol_pk p).
Proof.
  unfold Stat_protocol. destruct (stat_protocol s) as [k|].
  - rewrite list_elem_of_filter. naive_solver.
  - split; [by intros ?%elem_of_nil | naive_solver].
Qed.

Lemma not_truthy (v : option string) : v = None ∨ v = Some "" → truthy v = false.
Proof. by intros [-> | ->]. Qed.

(** C3: without a [name], or with an empty one, [resolve_stats_platform_today]
    and [resolve_stats_protocol_today] raise nothing and return the empty
    queryset; with a name they return what [.first()] finds among the rows
    of today that name that platform (protocol) and have the two other scope
    columns NULL: such a row, the only one when there is just one, and
    [None] only when there is none. *)
Theorem today_rollup_row (db : Database) (today : date) (kwargs : gmap string string) :
  (kwargs !! "name" = None ∨ kwargs !! "name" = Some "" →
     Query.resolve_stats_platform_today db today kwargs = Returned (Query.QuerySet [])
     ∧ Query.resolve_stats_protocol_today db today kwargs = Returned (Query.QuerySet []))
  ∧ (∀ name, kwargs !! "name" = Some name → name ≠ "" →
       (∃ r, Query.resolve_stats_platform_today db today kwargs = Returned (Query.Row r)
             ∧ the_row (is_platform_row db today name) r)
       ∧ (∃ r, Query.resolve_stats_protocol_today db today kwargs = Returned (Query.Row r)
               ∧ the_row (is_protocol_row db today name) r)).
Proof.
  split.
  - intros Hname%not_truthy.
    unfold Query.resolve_stats_platform_today, Query.resolve_stats_protocol_today.
    by rewrite Hname.
  - intros name Hname Hne%truthy_Some.
    unfold Query.resolve_stats_platform_today, Query.resolve_stats_protocol_today.
    rewrite Hname, Hne. simpl. split.
    + eexists. split; [done|]. apply first_the_row. intros s.
      rewrite elem_of_join_filter, list_elem_of_filter. unfold is_platform_row.
      setoid_rewrite elem_of_Stat_platform. naive_solver.
    + eexists. split; [done|]. apply first_the_row. intros s.
      rewrite elem_of_join_filter, list_elem_of_filter. unfold is_protocol_row.
      setoid_rewrite elem_of_Stat_protocol. naive_solver.
Qed.

Lemma today_rollup_row_witness :
  (Query.resolve_stats_platform_today nodes_db (jan 3) ∅ = Returned (Query.QuerySet [])
   ∧ Query.resolve_stats_protocol_today nodes_db (jan 3) ∅ = Returned (Query.QuerySet []))
  ∧ ∃ r, Query.resolve_stats_platform_today nodes_db (jan 3) {[ "name" := "diaspora" ]}
         = Returned (Query.Row r)
         ∧ the_row (is_platform_row nodes_db (jan 3) "diaspora") r.
Proof.
  split.
  - refine (proj1 (today_rollup_row nodes_db (jan 3) ∅) _). left. reflexivity.
  - refine (proj1 (proj2 (today_rollup_row nodes_db (jan 3) ({[ "name" := "diaspora" ]}))
                     "diaspora" _ _)).
    + reflexivity.
    + discriminate.
Defined.

(** ** The test-mode switch of the local settings *)

Lemma env_bool_true (env : Local.Env) (var : string) :
  Local.env_bool env var false = true ↔
  ∃ text, Local.environ env !! var = Some text ∧ Local.cast_bool env text = true.
Proof.
  unfold Local.env_bool. destruct (Local.environ env !! var) as [text|].
  - split; [by exists text | by intros (? & [= <-] & ?)].
  - split; [done | by intros (? & ? & ?)].
Qed.

(** C9: [testing] is true exactly when the [CI] variable is set and reads
    as true, or the [TEST] variable is set and reads as true, or "test" is one
    of the arguments of the process; when it is true [REDIS_DB] is 15, and
    when it is false [REDIS_DB] is left as the base settings have it. *)
Theorem testing_redirects_redis (env : Local.Env) (argv : list string)
    (base : gmap string Z) :
  (Local.testing env argv = true ↔
     (∃ text, Local.environ env !! "CI" = Some text ∧ Local.cast_bool env text = true)
     ∨ (∃ text, Local.environ env !! "TEST" = Some text ∧ Local.cast_bool env text = true)
     ∨ "test" ∈ argv)
  ∧ (Local.testing env argv = true →
       Local.settings env argv base !! "REDIS_DB" = Some 15)
  ∧ (Local.testing env argv = false →
       Local.settings env argv base !! "REDIS_DB" = base !! "REDIS_DB").
Proof.
  split; [|split].
  - unfold Local.testing.
    rewrite !orb_true_iff, bool_decide_eq_true, !env_bool_true. tauto.
  - intros Ht. unfold Local.settings. rewrite Ht. apply lookup_insert_eq.
  - intros Ht. unfold Local.settings. rewrite Ht. by rewrite lookup_insert_ne.
Qed.

(** ** Subqueries as columns *)

Lemma values_annotate_nil_inv {A K C} `{EqDecision K}
    (key : A → K) (agg : list A → C) (qs : list A) :
  values_annotate key agg qs = [] → qs = [].
Proof.
  destruct qs as [|a qs]; [done|]. intros Hnil.
  assert ((key a, agg (filter (λ x, key x = key a) (a :: qs)))
            ∈ values_annotate key agg (a :: qs)) as Hin.
  { apply elem_of_values_annotate. split; [|done]. exists a. split; [left | done]. }
  rewrite Hnil in Hin. by apply elem_of_nil in Hin.
Qed.

(** A subquery that groups by a column and returns has found no row, or
    rows that agree on that column: its value is then the aggregate of all
    the rows. *)
Lemma Subquery_grouped_Returned {A K} `{EqDecision K}
    (key : A → K) (agg : list A → option Z) (qs : list A) (u : option Z) :
  Subquery (values_annotate key agg qs).*2 = Returned u →
  (qs = [] ∧ u = None) ∨ (qs ≠ [] ∧ u = agg qs).
Proof.
  destruct (values_annotate key agg qs) as [|[k c] [|? ?]] eqn:Hva; simpl; [| |done].
  - intros [= <-]. left. split; [|done]. by eapply values_annotate_nil_inv.
  - intros [= <-]. right. split.
    + intros ->. by rewrite values_annotate_nil in Hva.
    + by apply values_annotate_singleton in Hva as [_ ->].
Qed.

(** A subquery that groups by a column on which its rows agree returns. *)
Lemma Subquery_grouped_constant {A K} `{EqDecision K}
    (key : A → K) (agg : list A → option Z) (qs : list A) :
  (∀ a b, a ∈ qs → b ∈ qs → key a = key b) →
  Subquery (values_annotate key agg qs).*2
  = Returned (match qs with [] => None | _ => agg qs end).
Proof.
  intros Hagree. destruct qs as [|a qs]; [done|].
  rewrite (values_annotate_constant key agg (a :: qs) (key a)); [done..|].
  intros b Hb. apply Hagree; [done | left].
Qed.

(** ** The claims on [resolve_nodes] *)

Section resolve_nodes_facts.
Variables (db : Database) (today : date) (kwargs : gmap string string).

(** The nodes selected before the annotation: active ones, all of them. *)
Lemma resolve_nodes_rows rows :
  Query.resolve_nodes db today kwargs = Returned rows →
  StronglySorted by_users rows
  ∧ ∀ r, r ∈ rows →
      r.1 ∈ nodes db ∧ active r.1 = true ∧ r.2 = users_today db today r.1.
Proof.
  unfold Query.resolve_nodes.
  match goal with
  | |- outcome_bind (annotate ?sub (active_nodes ?qs)) _ = _ → _ =>
      set (selected := qs); destruct (annotate sub (active_nodes selected)) as [rs|e] eqn:Hann
  end; simpl; [|done].
  intros [= <-]. split; [apply order_by_sorted; apply _|].
  intros r Hr%elem_of_order_by.
  destruct (annotate_Returned _ _ _ Hann r Hr) as [Hsel Hsub].
  apply list_elem_of_filter in Hsel as [Hact Hsel].
  split; [|split; [done|]].
  - clear Hsub Hann Hr. subst selected.
    assert (∀ l : list Node, r.1 ∈ active_nodes l → r.1 ∈ l) as Hactive.
    { intros l Hl. by apply list_elem_of_filter in Hl as [_ ?]. }
    repeat case_match.
    all: repeat match goal with
      | H : _ ∈ filter _ _ |- _ => apply list_elem_of_filter in H as [_ H]
      | H : _ ∈ join_filter _ _ _ |- _ => apply elem_of_join_filter in H as [H _]
      end.
    all: by apply Hactive.
  - apply Subquery_grouped_Returned in Hsub as [[Hnil ->] | [_ ->]]; [|done].
    unfold users_today. by rewrite Hnil.
Qed.

Lemma resolve_nodes_returns :
  one_count_per_node db today →
  ∃ rows, Query.resolve_nodes db today kwargs = Returned rows.
Proof.
  intros Hone. unfold Query.resolve_nodes.
  match goal with
  | |- ∃ _, outcome_bind (annotate ?sub ?qs) _ = _ =>
      rewrite (annotate_total sub (users_today db today) qs)
  end; [by eexists|].
  intros n _. unfold users_today.
  rewrite Subquery_grouped_constant; [by destruct (filter _ _)|].
  intros s1 s2 [[Hn1 Hd1] Hs1]%list_elem_of_filter [[Hn2 Hd2] Hs2]%list_elem_of_filter.
  unfold one_count_per_node in Hone. rewrite Forall_forall in Hone.
  specialize (Hone s1 Hs1). rewrite Forall_forall in Hone.
  apply (Hone s2 Hs2); [by rewrite Hn1 | by rewrite Hn1, Hn2 | done..].
Qed.
End resolve_nodes_facts.

(** In a sorted list, what comes after an element is related to it. *)
Lemma sorted_after {A} (R : relation A) (l before after : list A) (a b : A) :
  StronglySorted R l → l = before ++ a :: after → b ∈ after → R a b.
Proof.
  intros Hs -> Hb. apply StronglySorted_app_1_r in Hs.
  apply StronglySorted_inv in Hs as [_ Hall]. by eapply Forall_forall in Hall.
Qed.

(** C4: whatever [platform], [protocol] and [host] arguments are given,
    [resolve_nodes] returns (when the stat rows that a node has for today
    agree on [users_monthly]), and every row it returns is a node of the
    table whose active flag is set. *)
Theorem nodes_only_active (db : Database) (today : date) (kwargs : gmap string string) :
  (one_count_per_node db today →
     ∃ rows, Query.resolve_nodes db today kwargs = Returned rows)
  ∧ (∀ rows, Query.resolve_nodes db today kwargs = Returned rows →
       ∀ r, r ∈ rows → r.1 ∈ nodes db ∧ active r.1 = true).
Proof.
  split; [apply resolve_nodes_returns|].
  intros rows [_ Hrows]%resolve_nodes_rows r Hr.
  destruct (Hrows r Hr) as (? & ? & _). done.
Qed.

Lemma nodes_only_active_witness :
  (∃ rows, Query.resolve_nodes nodes_db (jan 3) {[ "host" := "pod.example" ]} = Returned rows)
  ∧ ∀ r, r ∈ [(pod, Some 5)] → r.1 ∈ nodes nodes_db ∧ active r.1 = true.
Proof.
  split.
  - refine (proj1 (nodes_only_active nodes_db (jan 3) ({[ "host" := "pod.example" ]})) _).
    apply (bool_decide_unpack _). vm_compute. exact I.
  - refine (proj2 (nodes_only_active nodes_db (jan 3) ({[ "host" := "pod.example" ]}))
              [(pod, Some 5)] _).
    vm_compute. reflexivity.
Defined.

(** C5: the rows that [resolve_nodes] returns carry as [users] the greatest
    [users_monthly] of the node for today and are in non-increasing order of
    it, the rows without a value after all the rows with one; two active
    nodes with 50 and 5 come out as the node with 50, then the node with 5. *)
Theorem nodes_ordered_by_users :
  (∀ (db : Database) (today : date) (kwargs : gmap string string) rows,
     Query.resolve_nodes db today kwargs = Returned rows →
     (∀ r, r ∈ rows → r.2 = users_today db today r.1)
     ∧ StronglySorted desc_nulls_last rows.*2
     ∧ (∀ before after x y, rows.*2 = before ++ Some x :: after →
          Some y ∈ after → y ≤ x)
     ∧ (∀ before after u, rows.*2 = before ++ None :: after → u ∈ after → u = None))
  ∧ Query.resolve_nodes nodes_db (jan 3) ∅ = Returned [(social, Some 50); (pod, Some 5)].
Proof.
  split; [|by vm_compute].
  intros db today kwargs rows [Hsorted Hrows]%resolve_nodes_rows.
  assert (StronglySorted desc_nulls_last rows.*2) as Hs
    by (by apply (StronglySorted_fmap snd by_users desc_nulls_last)).
  split; [|split; [done|split]].
  - intros r Hr. by destruct (Hrows r Hr) as (_ & _ & ?).
  - intros before after x y Heq Hy. by apply (sorted_after _ _ _ _ _ _ Hs Heq Hy).
  - intros before after u Heq Hu.
    pose proof (sorted_after _ _ _ _ _ _ Hs Heq Hu) as Hd. by destruct u.
Qed.

Lemma nodes_ordered_by_users_witness :
  (∀ r, r ∈ [(social, Some 50); (pod, Some 5)] → r.2 = users_today nodes_db (jan 3) r.1)
  ∧ StronglySorted desc_nulls_last [Some 50; Some 5]
  ∧ (∀ before after x y, [Some 50; Some 5] = before ++ Some x :: after →
       Some y ∈ after → y ≤ x)
  ∧ (∀ before after u, [Some 50; Some 5] = before ++ None :: after → u ∈ after → u = None).
Proof.
  refine (proj1 nodes_ordered_by_users nodes_db (jan 3) ({[ "protocol" := "" ]})
            [(social, Some 50); (pod, Some 5)] _).
  vm_compute. reflexivity.
Defined.

(** ** The claims on [resolve_platforms] and [resolve_protocols] *)

Lemma StronglySorted_impl_elem {A} (R R' : relation A) (l : list A) :
  (∀ x y, x ∈ l → y ∈ l → R x y → R' x y) →
  StronglySorted R l → StronglySorted R' l.
Proof.
  intros Himpl Hs. induction Hs as [|a l Hs IH Hall]; [constructor|].
  constructor.
  - apply IH. intros x y Hx Hy. apply Himpl; by right.
  - apply Forall_forall. intros x Hx. apply Himpl; [left | by right |].
    by eapply Forall_forall in Hall.
Qed.

(** The tail that the two resolvers share: annotate with the count of the
    subquery, keep the rows whose count is above zero, order by it. *)
Lemma counted_rows {A} (qs : list A) (sub : A → list (option Z)) (count : A → Z) :
  (∀ a, Subquery (sub a) = Returned (if decide (count a = 0) then None else Some (count a))) →
  (∀ a, 0 ≤ count a) →
  ∃ rows,
    (let* rows := annotate (λ a, Subquery (sub a)) qs in
     Returned (order_by by_active_nodes (filter (λ r, gt0 r.2) rows))) = Returned rows
    ∧ StronglySorted (λ r1 r2, count r2.1 ≤ count r1.1) rows
    ∧ ∀ r, r ∈ rows ↔ r.1 ∈ qs ∧ r.2 = Some (count r.1) ∧ 0 < count r.1.
Proof.
  intros Hsub Hcount.
  rewrite (annotate_total _ (λ a, if decide (count a = 0) then None else Some (count a)))
    by (intros a _; apply Hsub).
  simpl. eexists. split; [done|].
  assert (∀ r, r ∈ order_by by_active_nodes
                      (filter (λ r : A * option Z, gt0 r.2)
                         ((λ a, (a, if decide (count a = 0) then None else Some (count a)))
                            <$> qs))
               ↔ r.1 ∈ qs ∧ r.2 = Some (count r.1) ∧ 0 < count r.1) as Hrows.
  { intros [a c]. rewrite elem_of_order_by, list_elem_of_filter, list_elem_of_fmap. simpl.
    split.
    - intros [Hgt (a' & [= -> ->] & Ha)]. case_decide; simpl in Hgt; [done|].
      by repeat split.
    - intros (Ha & -> & Hpos). split; [done|]. exists a.
      rewrite decide_False by lia. done. }
  split; [|done].
  apply (StronglySorted_impl_elem by_active_nodes); [|apply order_by_sorted; apply _].
  intros r1 r2 (_ & H1 & _)%Hrows (_ & H2 & _)%Hrows. unfold by_active_nodes.
  by rewrite H1, H2.
Qed.

Lemma length_bind_fmap {A B C} (f : A → list B) (g : A → B → C) (l : list A) :
  length (l ≫= λ a, g a <$> f a) = length (l ≫= f).
Proof.
  induction l as [|a l IH]; [done|].
  rewrite !bind_cons, !length_app, length_fmap. by rewrite IH.
Qed.

Section platforms_and_protocols.
Variables (lower : string → string) (db : Database) (kwargs : gmap string string).

(** The rows of [resolve_platforms]: the platforms that pass the name
    filter and have an active node, each with its number of active
    nodes, the greater numbers first. *)
Lemma resolve_platforms_rows :
  ∃ rows,
    Query.resolve_platforms lower db kwargs = Returned rows
    ∧ StronglySorted
        (λ r1 r2, platform_active_nodes db r2.1 ≤ platform_active_nodes db r1.1) rows
    ∧ ∀ r, r ∈ rows ↔
        (r.1 ∈ platforms db
         ∧ (truthy (kwargs !! "name") = true →
            Some (platform_name r.1) = lower <$> kwargs !! "name"))
        ∧ r.2 = Some (platform_active_nodes db r.1)
        ∧ 0 < platform_active_nodes db r.1.
Proof.
  unfold Query.resolve_platforms. cbv zeta.
  match goal with
  | |- ∃ _, outcome_bind (annotate (λ p, Subquery (@?sub p)) ?qs) _ = _ ∧ _ =>
      destruct (counted_rows qs sub (platform_active_nodes db)) as (rows & Hret & Hs & Hrows)
  end.
  - intros p. unfold platform_active_nodes.
    rewrite Subquery_grouped_constant.
    + destruct (filter _ _) as [|n l]; [done|].
      rewrite decide_False; [done | simpl; lia].
    + intros n1 n2 [Hn1 _]%list_elem_of_filter [Hn2 _]%list_elem_of_filter. congruence.
  - intros p. unfold platform_active_nodes. lia.
  - exists rows. split; [done|]. split; [done|].
    intros r. rewrite Hrows. destruct (truthy (kwargs !! "name")).
    + rewrite list_elem_of_filter. naive_solver.
    + naive_solver.
Qed.

Lemma resolve_protocols_rows :
  ∃ rows,
    Query.resolve_protocols lower db kwargs = Returned rows
    ∧ StronglySorted
        (λ r1 r2, protocol_active_nodes db r2.1 ≤ protocol_active_nodes db r1.1) rows
    ∧ ∀ r, r ∈ rows ↔
        (r.1 ∈ protocols db
         ∧ (truthy (kwargs !! "name") = true →
            Some (protocol_name r.1) = lower <$> kwargs !! "name"))
        ∧ r.2 = Some (protocol_active_nodes db r.1)
        ∧ 0 < protocol_active_nodes db r.1.
Proof.
  unfold Query.resolve_protocols. cbv zeta.
  match goal with
  | |- ∃ _, outcome_bind (annotate (λ p, Subquery (@?sub p)) ?qs) _ = _ ∧ _ =>
      destruct (counted_rows qs sub (protocol_active_nodes db)) as (rows & Hret & Hs & Hrows)
  end.
  - intros p. unfold protocol_active_nodes.
    rewrite Subquery_grouped_constant.
    + rewrite <- (length_bind_fmap _ (λ n k, (n, k))).
      destruct (_ ≫= _) as [|n l]; [done|].
      rewrite decide_False; [done | simpl; lia].
    + intros r1 r2 (n1 & Hr1 & _)%list_elem_of_bind (n2 & Hr2 & _)%list_elem_of_bind.
      apply list_elem_of_fmap in Hr1 as (k1 & -> & [-> _]%list_elem_of_filter).
      apply list_elem_of_fmap in Hr2 as (k2 & -> & [-> _]%list_elem_of_filter).
      done.
  - intros p. unfold protocol_active_nodes. lia.
  - exists rows. split; [done|]. split; [done|].
    intros r. rewrite Hrows. destruct (truthy (kwargs !! "name")).
    + rewrite list_elem_of_filter. naive_solver.
    + naive_solver.
Qed.
End platforms_and_protocols.

(** C6: on every input [resolve_platforms] and [resolve_protocols] return;
    every row carries the number of active nodes of its platform
    (protocol), that number is above zero, and the rows are in
    non-increasing order of it. *)
Theorem no_entry_without_active_nodes (lower : string → string) (db : Database)
    (kwargs : gmap string string) :
  (∃ rows,
     Query.resolve_platforms lower db kwargs = Returned rows
     ∧ (∀ r, r ∈ rows →
          r.2 = Some (platform_active_nodes db r.1) ∧ 0 < platform_active_nodes db r.1)
     ∧ StronglySorted
         (λ r1 r2, platform_active_nodes db r2.1 ≤ platform_active_nodes db r1.1) rows)
  ∧ (∃ rows,
       Query.resolve_protocols lower db kwargs = Returned rows
       ∧ (∀ r, r ∈ rows →
            r.2 = Some (protocol_active_nodes db r.1) ∧ 0 < protocol_active_nodes db r.1)
       ∧ StronglySorted
           (λ r1 r2, protocol_active_nodes db r2.1 ≤ protocol_active_nodes db r1.1) rows).
Proof.
  split.
  - destruct (resolve_platforms_rows lower db kwargs) as (rows & Hret & Hs & Hrows).
    exists rows. split; [done|]. split; [|done].
    intros r Hr%Hrows. tauto.
  - destruct (resolve_protocols_rows lower db kwargs) as (rows & Hret & Hs & Hrows).
    exists rows. split; [done|]. split; [|done].
    intros r Hr%Hrows. tauto.
Qed.

Lemma elem_of_fst {A B} (l : list (A * B)) (a : A) : a ∈ l.*1 ↔ ∃ b, (a, b) ∈ l.
Proof.
  rewrite list_elem_of_fmap. split.
  - intros ([a' b] & -> & ?). by exists b.
  - intros [b ?]. by exists (a, b).
Qed.

(** C8, as amended: given a (non-empty) [name], [resolve_platforms] and
    [resolve_protocols] both filter by the lower-cased name: they return the
    platforms, and the protocols, that have an active node and whose name is
    [name.lower()], whatever [str.lower()] does to the name. *)
Theorem names_are_lower_cased (lower : string → string) (db : Database)
    (kwargs : gmap string string) (name : string) :
  kwargs !! "name" = Some name → name ≠ "" →
  (∃ rows,
     Query.resolve_platforms lower db kwargs = Returned rows
     ∧ ∀ p, p ∈ rows.*1 ↔
         p ∈ platforms db ∧ platform_name p = lower name
         ∧ 0 < platform_active_nodes db p)
  ∧ (∃ rows,
       Query.resolve_protocols lower db kwargs = Returned rows
       ∧ ∀ p, p ∈ rows.*1 ↔
           p ∈ protocols db ∧ protocol_name p = lower name
           ∧ 0 < protocol_active_nodes db p).
Proof.
  intros Hname Hne%truthy_Some. split.
  - destruct (resolve_platforms_rows lower db kwargs) as (rows & Hret & _ & Hrows).
    exists rows. split; [done|]. intros p. rewrite elem_of_fst.
    setoid_rewrite Hrows. rewrite Hname, Hne. simpl. split.
    + intros (c & [Hp Hlow] & _ & Hpos). specialize (Hlow eq_refl).
      by injection Hlow as ->.
    + intros (Hp & -> & Hpos). eexists. by repeat split.
  - destruct (resolve_protocols_rows lower db kwargs) as (rows & Hret & _ & Hrows).
    exists rows. split; [done|]. intros p. rewrite elem_of_fst.
    setoid_rewrite Hrows. rewrite Hname, Hne. simpl. split.
    + intros (c & [Hp Hlow] & _ & Hpos). specialize (Hlow eq_refl).
      by injection Hlow as ->.
    + intros (Hp & -> & Hpos). eexists. by repeat split.
Qed.

Lemma names_are_lower_cased_witness :
  ∃ rows,
    Query.resolve_protocols ascii_lower nodes_db {[ "name" := "ActivityPub" ]}
    = Returned rows
    ∧ ∀ p, p ∈ rows.*1 ↔
        p ∈ protocols nodes_db ∧ protocol_name p = ascii_lower "ActivityPub"
        ∧ 0 < protocol_active_nodes nodes_db p.
Proof.
  refine (proj2 (names_are_lower_cased ascii_lower nodes_db
                   ({[ "name" := "ActivityPub" ]}) "ActivityPub" _ _)).
  - reflexivity.
  - discriminate.
Defined.

(** C8, as stated, fails for protocols: asked for "Diaspora", an ASCII
    text that [str.lower()] turns into "diaspora", [resolve_protocols]
    returns the protocol named "diaspora", which an exact match of the name
    as given would not select. *)
Lemma protocols_name_is_not_exact :
  let kwargs : gmap string string := {[ "name" := "Diaspora" ]} in
  kwargs !! "name" = Some "Diaspora"
  ∧ ascii_lower "Diaspora" = "diaspora"
  ∧ Query.resolve_protocols ascii_lower nodes_db kwargs
    = Returned [(diaspora_protocol, Some 1)]
  ∧ protocol_name diaspora_protocol ≠ "Diaspora"
  ∧ filter (λ p, protocol_name p = "Diaspora") (protocols nodes_db) = [].
Proof.
  split; [reflexivity|]. split; [reflexivity|]. split; [by vm_compute|].
  split; [discriminate | by vm_compute].
Qed.

(** ** [resolve_stats_nodes] *)

Lemma elem_of_lookup_filter {A} (cols : A → list (option string)) (value : option string)
    (l : list A) (a : A) :
  a ∈ lookup_filter cols value l ↔ a ∈ l ∧ value ∈ cols a.
Proof.
  unfold lookup_filter. rewrite list_elem_of_bind. split.
  - intros (a' & Ha & Ha').
    apply list_elem_of_fmap in Ha as (c & -> & [-> Hc]%list_elem_of_filter). done.
  - intros [Ha Hv]. exists a. split; [|done].
    apply list_elem_of_fmap. exists value. split; [done|]. by apply list_elem_of_filter.
Qed.

Lemma elem_of_left_join_Some {A B} (rel : A → list B) (a : option A) (b : B) :
  Some b ∈ left_join rel a ↔ ∃ a', a = Some a' ∧ b ∈ rel a'.
Proof.
  unfold left_join. destruct a as [a|].
  - destruct (rel a) as [|b' bs] eqn:Hrel.
    + rewrite list_elem_of_singleton. split; [done|].
      intros (a' & [= <-] & Hb). rewrite Hrel in Hb. by apply elem_of_nil in Hb.
    + rewrite list_elem_of_fmap. split.
      * intros (b'' & [= <-] & Hb). exists a. by rewrite Hrel.
      * intros (a' & [= <-] & Hb). rewrite Hrel in Hb. eauto.
  - rewrite list_elem_of_singleton. split; [done | by intros (? & ? & ?)].
Qed.

Lemma elem_of_left_join_None {A B} (rel : A → list B) (a : option A) :
  None ∈ left_join rel a ↔ a = None ∨ ∃ a', a = Some a' ∧ rel a' = [].
Proof.
  unfold left_join. destruct a as [a|].
  - destruct (rel a) as [|b' bs] eqn:Hrel.
    + rewrite list_elem_of_singleton. split; [right; eauto | done].
    + rewrite list_elem_of_fmap. split.
      * by intros (? & ? & ?).
      * intros [?|(a' & [= <-] & Hnil)]; [done|]. by rewrite Hrel in Hnil.
  - rewrite list_elem_of_singleton. split; [by left | done].
Qed.

(** With a value, the three lookups keep the rows in the scope of the
    item, as the lookups of the aggregate resolvers do. *)
Lemma lookup_platform_name db s v :
  Some v ∈ node__platform__name db s ↔ in_scope db ItemPlatform v s.
Proof.
  unfold node__platform__name, in_scope. rewrite list_elem_of_bind. split.
  - intros (on & Hv & Hn).
    apply list_elem_of_fmap in Hv as ([p|] & Hv & Hp); [|done].
    injection Hv as ->.
    apply elem_of_left_join_Some in Hp as (n & -> & Hp%elem_of_Node_platform).
    apply elem_of_left_join_Some in Hn as (? & [= <-] & Hn%elem_of_Stat_node).
    exists n. split; [tauto|]. split; [tauto|]. exists p. tauto.
  - intros (n & Hn & Hs & p & Hp & Hpk & <-). exists (Some n). split.
    + apply list_elem_of_fmap. exists (Some p). split; [done|].
      apply elem_of_left_join_Some. exists n. split; [done|].
      by apply elem_of_Node_platform.
    + apply elem_of_left_join_Some. exists s. split; [done|].
      by apply elem_of_Stat_node.
Qed.

Lemma lookup_protocols_name db s v :
  Some v ∈ node__protocols__name db s ↔ in_scope db ItemProtocol v s.
Proof.
  unfold node__protocols__name, in_scope. rewrite list_elem_of_bind. split.
  - intros (on & Hv & Hn).
    apply list_elem_of_bind in Hv as (ok & Hv & Hk).
    apply list_elem_of_fmap in Hv as ([p|] & Hv & Hp); [|done].
    injection Hv as ->.
    apply elem_of_left_join_Some in Hp as (k & -> & [Hpk Hp]%list_elem_of_filter).
    apply elem_of_left_join_Some in Hk as (n & -> & Hk%elem_of_Node_protocol_ids).
    apply elem_of_left_join_Some in Hn as (? & [= <-] & Hn%elem_of_Stat_node).
    exists n. split; [tauto|]. split; [tauto|]. exists p. by subst k.
  - intros (n & Hn & Hs & p & Hp & Hlink & <-). exists (Some n). split.
    + apply list_elem_of_bind. exists (Some (protocol_pk p)). split.
      * apply list_elem_of_fmap. exists (Some p). split; [done|].
        apply elem_of_left_join_Some. exists (protocol_pk p). split; [done|].
        by apply list_elem_of_filter.
      * apply elem_of_left_join_Some. exists n. split; [done|].
        by apply elem_of_Node_protocol_ids.
    + apply elem_of_left_join_Some. exists s. split; [done|].
      by apply elem_of_Stat_node.
Qed.

Lemma lookup_host db s v :
  Some v ∈ node__host db s ↔ in_scope db ItemNode v s.
Proof.
  unfold node__host, in_scope. rewrite list_elem_of_fmap. split.
  - intros ([n|] & Hv & Hn); [|done]. injection Hv as ->.
    apply elem_of_left_join_Some in Hn as (? & [= <-] & Hn%elem_of_Stat_node).
    exists n. tauto.
  - intros (n & Hn & Hs & <-). exists (Some n). split; [done|].
    apply elem_of_left_join_Some. exists s. split; [done|].
    by apply elem_of_Stat_node.
Qed.

(** Without a value, the lookup of the protocol name keeps the rows whose
    join comes up empty. *)
Lemma lookup_protocols_name_None db s :
  None ∈ node__protocols__name db s ↔ no_protocol_name db s.
Proof.
  unfold node__protocols__name, no_protocol_name.
  rewrite list_elem_of_bind. split.
  - intros (on & Hv & Hn). apply list_elem_of_bind in Hv as (ok & Hv & Hk).
    destruct on as [n|].
    + apply elem_of_left_join_Some in Hn as (? & [= <-] & Hn). right.
      exists n. split; [done|].
      destruct ok as [k|].
      * apply elem_of_left_join_Some in Hk as (? & [= <-] & Hk). right.
        exists k. split; [done|].
        apply list_elem_of_fmap in Hv as ([p|] & Hv & Hp); [done|].
        by apply elem_of_left_join_None in Hp as [?|(? & [= <-] & ?)].
      * by apply elem_of_left_join_None in Hk as [?|(? & [= <-] & ?)]; [|left].
    + apply elem_of_left_join_None in Hn as [?|(? & [= <-] & ?)]; [done | by left].
  - intros [Hnil | (n & Hn & Hno)].
    + exists None. split; [by left|].
      apply elem_of_left_join_None. right. eauto.
    + exists (Some n). split; [|apply elem_of_left_join_Some; eauto].
      apply list_elem_of_bind. destruct Hno as [Hnil | (k & Hk & Hnil)].
      * exists None. split; [by left|]. apply elem_of_left_join_None. right. eauto.
      * exists (Some k). split; [|apply elem_of_left_join_Some; eauto].
        apply list_elem_of_fmap. exists None. split; [done|].
        apply elem_of_left_join_None. right. eauto.
Qed.

Lemma host_matches_lookup db (h : option string) (qs : list Stat) s :
  s ∈ (if truthy h then lookup_filter (node__host db) h qs else qs)
  ↔ s ∈ qs ∧ host_matches db h s.
Proof.
  unfold host_matches. destruct (truthy h) eqn:Hh.
  - apply truthy_true in Hh as (v & -> & _).
    rewrite elem_of_lookup_filter, lookup_host. unfold in_scope.
    split; [|naive_solver]. intros [? (n & ? & ? & <-)]. eauto 10.
  - naive_solver.
Qed.

(** The lookups of a [kwargs] with some keys removed or set. *)
Ltac kwargs_lookups :=
  repeat match goal with
    | |- context [delete ?i ?m !! ?k] =>
        first [rewrite (lookup_delete_ne m i k) by discriminate
              | rewrite (lookup_delete_eq m i)]
    | |- context [<[?i := ?x]> ?m !! ?k] =>
        first [rewrite (lookup_insert_ne m i k x) by discriminate
              | rewrite (lookup_insert_eq m i x)]
    end.

(** X1: every row that [resolve_stats_nodes] returns is a stat row of the
    table dated today, with a node and with neither a platform nor a
    protocol, whatever the arguments. *)
Theorem stats_nodes_are_per_node_rows (db : Database) (today : date)
    (kwargs : gmap string string) (s : Stat) :
  s ∈ Query_rows.resolve_stats_nodes db today kwargs →
  s ∈ stats db ∧ per_node_today today s.
Proof.
  unfold Query_rows.resolve_stats_nodes.
  destruct (if truthy (kwargs !! "itemType") then _ else _) as [item_type value].
  intros [Hrow Hs]%list_elem_of_filter. split; [|done].
  apply host_matches_lookup in Hs as [Hs _].
  repeat case_bool_decide; [by apply elem_of_lookup_filter in Hs as [? _]..|done].
Qed.

Lemma stats_nodes_are_per_node_rows_witness :
  snapshot 2 (jan 3) 2 50 60 ∈ stats nodes_db
  ∧ per_node_today (jan 3) (snapshot 2 (jan 3) 2 50 60).
Proof.
  refine (stats_nodes_are_per_node_rows nodes_db (jan 3) ({[ "platform" := "mastodon" ]}) _ _).
  vm_compute. left.
Defined.

(** X2: in [resolve_stats_nodes] a given [itemType] wins over the
    [platform] and [protocol] arguments, which are then not looked at, and a
    given [platform] wins over [protocol]. *)
Theorem stats_nodes_precedence (db : Database) (today : date) (kwargs : gmap string string) :
  (truthy (kwargs !! "itemType") = true →
     Query_rows.resolve_stats_nodes db today kwargs
     = Query_rows.resolve_stats_nodes db today (delete "platform" (delete "protocol" kwargs)))
  ∧ (truthy (kwargs !! "itemType") = false → truthy (kwargs !! "platform") = true →
       Query_rows.resolve_stats_nodes db today kwargs
       = Query_rows.resolve_stats_nodes db today (delete "protocol" kwargs)).
Proof.
  split.
  - intros Hi. unfold Query_rows.resolve_stats_nodes. kwargs_lookups. by rewrite Hi.
  - intros Hi Hp. unfold Query_rows.resolve_stats_nodes. kwargs_lookups. by rewrite Hi, Hp.
Qed.

Lemma stats_nodes_precedence_witness :
  Query_rows.resolve_stats_nodes nodes_db (jan 3)
    {[ "itemType" := "protocol"; "value" := "activitypub"; "platform" := "diaspora" ]}
  = Query_rows.resolve_stats_nodes nodes_db (jan 3)
      (delete "platform" (delete "protocol"
         {[ "itemType" := "protocol"; "value" := "activitypub"; "platform" := "diaspora" ]})).
Proof.
  refine (proj1 (stats_nodes_precedence nodes_db (jan 3)
    ({[ "itemType" := "protocol"; "value" := "activitypub"; "platform" := "diaspora" ]})) _).
  reflexivity.
Defined.



(** X4: [resolve_stats_nodes] does not validate [itemType]: one that is
    neither "platform" nor "protocol" ("node" included) scopes nothing, hides
    the [platform] and [protocol] arguments, and gives what the resolver
    gives without any of the four scope arguments. *)
Theorem stats_nodes_other_itemType (db : Database) (today : date)
    (kwargs : gmap string string) (t : string) :
  kwargs !! "itemType" = Some t → t ≠ "" → t ≠ "platform" → t ≠ "protocol" →
  Query_rows.resolve_stats_nodes db today kwargs
  = Query_rows.resolve_stats_nodes db today
      (delete "itemType" (delete "value" (delete "platform" (delete "protocol" kwargs)))).
Proof.
  intros Hi Ht%truthy_Some Hplatform Hprotocol.
  unfold Query_rows.resolve_stats_nodes. kwargs_lookups.
  rewrite Hi, Ht. simpl.
  rewrite !bool_decide_eq_false_2 by congruence. done.
Qed.

Lemma stats_nodes_other_itemType_witness :
  Query_rows.resolve_stats_nodes nodes_db (jan 3)
    {[ "itemType" := "node"; "value" := "pod.example"; "platform" := "mastodon" ]}
  = Query_rows.resolve_stats_nodes nodes_db (jan 3)
      (delete "itemType" (delete "value" (delete "platform" (delete "protocol"
         {[ "itemType" := "node"; "value" := "pod.example"; "platform" := "mastodon" ]})))).
Proof.
  refine (stats_nodes_other_itemType nodes_db (jan 3)
    ({[ "itemType" := "node"; "value" := "pod.example"; "platform" := "mastodon" ]})
    "node" _ _ _ _).
  - reflexivity.
  - discriminate.
  - discriminate.
  - discriminate.
Defined.

(** X5: with [itemType] "platform" or "protocol" and a [value] (the empty
    string too), [resolve_stats_nodes] returns the per-node rows of today
    whose node has a platform, or a protocol, of that name and, when a [host]
    is given, that host; and no other row. *)
Theorem stats_nodes_scoped (db : Database) (today : date) (kwargs : gmap string string)
    (i : item) (v : string) (s : Stat) :
  i ≠ ItemNode →
  kwargs !! "itemType" = Some (item_name i) → kwargs !! "value" = Some v →
  s ∈ Query_rows.resolve_stats_nodes db today kwargs
  ↔ s ∈ stats db ∧ per_node_today today s ∧ in_scope db i v s
    ∧ host_matches db (kwargs !! "host") s.
Proof.
  intros Hnode Hi Hv. unfold Query_rows.resolve_stats_nodes.
  rewrite Hi, Hv, item_name_truthy.
  rewrite list_elem_of_filter, host_matches_lookup. fold (per_node_today today s).
  destruct i; simpl; [| |done].
  - rewrite elem_of_lookup_filter, lookup_platform_name. tauto.
  - rewrite elem_of_lookup_filter, lookup_protocols_name. tauto.
Qed.

Lemma stats_nodes_scoped_witness :
  snapshot 2 (jan 3) 2 50 60
    ∈ Query_rows.resolve_stats_nodes nodes_db (jan 3)
        {[ "itemType" := "protocol"; "value" := "activitypub" ]}
  ↔ snapshot 2 (jan 3) 2 50 60 ∈ stats nodes_db
    ∧ per_node_today (jan 3) (snapshot 2 (jan 3) 2 50 60)
    ∧ in_scope nodes_db ItemProtocol "activitypub" (snapshot 2 (jan 3) 2 50 60)
    ∧ host_matches nodes_db
        (({[ "itemType" := "protocol"; "value" := "activitypub" ]} : gmap string string)
           !! "host")
        (snapshot 2 (jan 3) 2 50 60).
Proof.
  refine (stats_nodes_scoped nodes_db (jan 3)
    ({[ "itemType" := "protocol"; "value" := "activitypub" ]}) ItemProtocol "activitypub"
    _ _ _ _).
  - discriminate.
  - reflexivity.
  - reflexivity.
Defined.

(** X6: with [itemType="protocol"] and no [value], [resolve_stats_nodes]
    compares the protocol name with [None]: it returns the per-node rows of
    today (of the given [host]) whose join to a protocol name comes up empty,
    such as the rows of a node without a protocol, and no row whose node has
    protocols only. *)
Theorem stats_nodes_protocol_without_value (db : Database) (today : date)
    (kwargs : gmap string string) (s : Stat) :
  kwargs !! "itemType" = Some "protocol" → kwargs !! "value" = None →
  s ∈ Query_rows.resolve_stats_nodes db today kwargs
  ↔ s ∈ stats db ∧ per_node_today today s ∧ no_protocol_name db s
    ∧ host_matches db (kwargs !! "host") s.
Proof.
  intros Hi Hv. unfold Query_rows.resolve_stats_nodes. rewrite Hi, Hv. simpl.
  rewrite list_elem_of_filter, host_matches_lookup. fold (per_node_today today s).
  rewrite elem_of_lookup_filter, lookup_protocols_name_None. tauto.
Qed.

Lemma stats_nodes_protocol_without_value_witness :
  snapshot 1 (jan 3) 1 4 10
    ∈ Query_rows.resolve_stats_nodes series_db (jan 3) {[ "itemType" := "protocol" ]}
  ↔ snapshot 1 (jan 3) 1 4 10 ∈ stats series_db
    ∧ per_node_today (jan 3) (snapshot 1 (jan 3) 1 4 10)
    ∧ no_protocol_name series_db (snapshot 1 (jan 3) 1 4 10)
    ∧ host_matches series_db
        (({[ "itemType" := "protocol" ]} : gmap string string) !! "host")
        (snapshot 1 (jan 3) 1 4 10).
Proof.
  refine (stats_nodes_protocol_without_value series_db (jan 3)
    ({[ "itemType" := "protocol" ]}) _ _ _).
  - reflexivity.
  - reflexivity.
Defined.

(** ** More on [resolve_nodes] *)

Lemma annotate_fst {A C} (sub : A → outcome C) (qs : list A) rows :
  annotate sub qs = Returned rows → rows.*1 = qs.
Proof.
  unfold annotate. intros Hm%outcome_mapM_Returned.
  induction Hm as [|a r qs rows Har _ IH]; [done|].
  destruct (sub a) as [c|e]; simpl in Har; [|done].
  injection Har as <-. rewrite fmap_cons. simpl. f_equal. exact IH.
Qed.

Lemma order_by_fst {A C} (R : relation (A * C)) `{∀ x y, Decision (R x y)}
    (qs : list (A * C)) (a : A) :
  a ∈ (order_by R qs).*1 ↔ a ∈ qs.*1.
Proof. rewrite !list_elem_of_fmap. by setoid_rewrite elem_of_order_by. Qed.

(** X7: when [resolve_nodes] returns, its rows are the nodes that are
    active and pass the filters (the platform name or else the protocol
    name, and the host), and no such node is left out. *)
Theorem nodes_are_the_selected (db : Database) (today : date) (kwargs : gmap string string)
    (rows : list (Node * option Z)) :
  Query.resolve_nodes db today kwargs = Returned rows →
  ∀ n, n ∈ rows.*1 ↔ node_selected db kwargs n.
Proof.
  unfold Query.resolve_nodes.
  match goal with
  | |- outcome_bind (annotate ?sub ?qs) _ = _ → _ =>
      destruct (annotate sub qs) as [rs|e] eqn:Hann
  end; simpl; [|done].
  intros [= <-] n. rewrite order_by_fst.
  rewrite (annotate_fst _ _ _ Hann). unfold node_selected, active_nodes.
  rewrite list_elem_of_filter.
  destruct (truthy (kwargs !! "host")); rewrite ?list_elem_of_filter;
    destruct (truthy (kwargs !! "platform"));
    [| destruct (truthy (kwargs !! "protocol")) | | destruct (truthy (kwargs !! "protocol"))];
    rewrite ?elem_of_join_filter, ?list_elem_of_filter;
    try setoid_rewrite elem_of_Node_platform;
    try setoid_rewrite elem_of_Node_protocols;
    naive_solver.
Qed.

Lemma nodes_are_the_selected_witness :
  social ∈ [(social, Some 50)].*1
  ↔ node_selected nodes_db {[ "protocol" := "activitypub" ]} social.
Proof.
  refine (nodes_are_the_selected nodes_db (jan 3) ({[ "protocol" := "activitypub" ]})
            [(social, Some 50)] _ social).
  vm_compute. reflexivity.
Defined.

(** X8: in [resolve_nodes] a given [platform] wins over [protocol], which is
    then not looked at. *)
Theorem nodes_platform_wins (db : Database) (today : date) (kwargs : gmap string string) :
  truthy (kwargs !! "platform") = true →
  Query.resolve_nodes db today kwargs
  = Query.resolve_nodes db today (delete "protocol" kwargs).
Proof.
  intros Hp. unfold Query.resolve_nodes. kwargs_lookups. by rewrite Hp.
Qed.

Lemma nodes_platform_wins_witness :
  Query.resolve_nodes nodes_db (jan 3) {[ "platform" := "diaspora"; "protocol" := "activitypub" ]}
  = Query.resolve_nodes nodes_db (jan 3)
      (delete "protocol" {[ "platform" := "diaspora"; "protocol" := "activitypub" ]}).
Proof.
  refine (nodes_platform_wins nodes_db (jan 3)
            ({[ "platform" := "diaspora"; "protocol" := "activitypub" ]}) _).
  reflexivity.
Defined.

(** ** More on [resolve_platforms] and [resolve_protocols] *)

Lemma lower_ascii_idemp (c : Ascii.ascii) : lower_ascii (lower_ascii c) = lower_ascii c.
Proof. destruct c as [[] [] [] [] [] [] [] []]; reflexivity. Qed.

Lemma ascii_lower_idemp (s : string) : ascii_lower (ascii_lower s) = ascii_lower s.
Proof. induction s as [|c s IH]; simpl; [done|]. by rewrite lower_ascii_idemp, IH. Qed.

Lemma ascii_lower_empty (s : string) : ascii_lower s = "" ↔ s = "".
Proof. by destruct s. Qed.

Lemma length_pos_elem_of {A} (l : list A) : 0 < Z.of_nat (length l) ↔ ∃ x, x ∈ l.
Proof.
  destruct l as [|a l]; simpl.
  - split; [lia | by intros [? ?%elem_of_nil]].
  - split; [exists a; left | lia].
Qed.

Lemma platform_has_active_node db p :
  0 < platform_active_nodes db p ↔
  ∃ n, n ∈ nodes db ∧ active n = true ∧ node_platform n = platform_pk p.
Proof.
  unfold platform_active_nodes, active_nodes. rewrite length_pos_elem_of.
  setoid_rewrite list_elem_of_filter. setoid_rewrite list_elem_of_filter. naive_solver.
Qed.

Lemma protocol_has_active_node db p :
  0 < protocol_active_nodes db p ↔
  ∃ n, n ∈ nodes db ∧ active n = true ∧ (node_pk n, protocol_pk p) ∈ node_protocols db.
Proof.
  unfold protocol_active_nodes, active_nodes. rewrite length_pos_elem_of.
  setoid_rewrite list_elem_of_bind. setoid_rewrite list_elem_of_filter.
  setoid_rewrite elem_of_Node_protocol_ids. naive_solver.
Qed.

(** X9: the [name] argument of [resolve_platforms] and [resolve_protocols]
    is matched without regard to its case: two names with the same
    lower-case form give the same result.  (Of [str.lower()] this takes
    that it maps the empty text, and no other, to the empty text; with
    [ascii_lower] for it, names that differ in the case of ASCII letters
    give the same result.) *)
Theorem names_ignore_case (lower : string → string) (db : Database)
    (kwargs1 kwargs2 : gmap string string) (name1 name2 : string) :
  (∀ s, lower s = "" ↔ s = "") →
  kwargs1 !! "name" = Some name1 → kwargs2 !! "name" = Some name2 →
  lower name1 = lower name2 →
  Query.resolve_platforms lower db kwargs1 = Query.resolve_platforms lower db kwargs2
  ∧ Query.resolve_protocols lower db kwargs1 = Query.resolve_protocols lower db kwargs2.
Proof.
  intros Hempty H1 H2 Hlow.
  assert (truthy (Some name1) = truthy (Some name2)) as Htruthy.
  { simpl. apply bool_decide_ext.
    rewrite <- (Hempty name1), <- (Hempty name2), Hlow. done. }
  unfold Query.resolve_platforms, Query.resolve_protocols.
  rewrite H1, H2, Htruthy. simpl. by rewrite Hlow.
Qed.

Lemma names_ignore_case_witness :
  Query.resolve_platforms ascii_lower nodes_db {[ "name" := "MASTODON" ]}
  = Query.resolve_platforms ascii_lower nodes_db {[ "name" := "Mastodon" ]}
  ∧ Query.resolve_protocols ascii_lower nodes_db {[ "name" := "MASTODON" ]}
    = Query.resolve_protocols ascii_lower nodes_db {[ "name" := "Mastodon" ]}.
Proof.
  refine (names_ignore_case ascii_lower nodes_db
            ({[ "name" := "MASTODON" ]}) ({[ "name" := "Mastodon" ]})
            "MASTODON" "Mastodon" ascii_lower_empty _ _ _).
  - reflexivity.
  - reflexivity.
  - reflexivity.
Defined.

(** X10: asked by [name], [resolve_platforms] and [resolve_protocols] only
    ever return entries whose stored name is in lower case: an entry stored
    with a capital ASCII letter in its name cannot be found by name.  (Of
    [str.lower()] this takes that its result has no capital ASCII letter.) *)
Theorem only_lower_case_names_found (lower : string → string) (db : Database)
    (kwargs : gmap string string) :
  (∀ s, ascii_lower (lower s) = lower s) →
  truthy (kwargs !! "name") = true →
  (∀ rows, Query.resolve_platforms lower db kwargs = Returned rows →
     ∀ p, p ∈ rows.*1 → ascii_lower (platform_name p) = platform_name p)
  ∧ (∀ rows, Query.resolve_protocols lower db kwargs = Returned rows →
       ∀ p, p ∈ rows.*1 → ascii_lower (protocol_name p) = protocol_name p).
Proof.
  intros Hlower Hname. destruct (truthy_true _ Hname) as (name & Hk & _). split.
  - intros rows Hret p [c Hp]%elem_of_fst.
    destruct (resolve_platforms_rows lower db kwargs) as (rows' & Hret' & _ & Hrows).
    rewrite Hret in Hret'. injection Hret' as <-.
    apply Hrows in Hp as [[_ Hlow] _]. specialize (Hlow Hname).
    rewrite Hk in Hlow. injection Hlow as ->. apply Hlower.
  - intros rows Hret p [c Hp]%elem_of_fst.
    destruct (resolve_protocols_rows lower db kwargs) as (rows' & Hret' & _ & Hrows).
    rewrite Hret in Hret'. injection Hret' as <-.
    apply Hrows in Hp as [[_ Hlow] _]. specialize (Hlow Hname).
    rewrite Hk in Hlow. injection Hlow as ->. apply Hlower.
Qed.

Lemma only_lower_case_names_found_witness :
  ascii_lower (platform_name mastodon) = platform_name mastodon.
Proof.
  refine (proj1 (only_lower_case_names_found ascii_lower nodes_db
                   ({[ "name" := "Mastodon" ]}) ascii_lower_idemp _)
            [(mastodon, Some 1)] _ mastodon _).
  - reflexivity.
  - vm_compute. reflexivity.
  - left.
Defined.

(** X11: without a [name] (or with an empty one) [resolve_platforms] lists
    the platforms that some active node runs, and [resolve_protocols] the
    protocols that some active node is linked to; an entry with inactive
    nodes only is not listed. *)
Theorem entries_listed_without_name (lower : string → string) (db : Database)
    (kwargs : gmap string string) :
  kwargs !! "name" = None ∨ kwargs !! "name" = Some "" →
  (∃ rows, Query.resolve_platforms lower db kwargs = Returned rows
     ∧ ∀ p, p ∈ rows.*1 ↔
         p ∈ platforms db
         ∧ ∃ n, n ∈ nodes db ∧ active n = true ∧ node_platform n = platform_pk p)
  ∧ (∃ rows, Query.resolve_protocols lower db kwargs = Returned rows
       ∧ ∀ p, p ∈ rows.*1 ↔
           p ∈ protocols db
           ∧ ∃ n, n ∈ nodes db ∧ active n = true
                  ∧ (node_pk n, protocol_pk p) ∈ node_protocols db).
Proof.
  intros Hname%not_truthy. split.
  - destruct (resolve_platforms_rows lower db kwargs) as (rows & Hret & _ & Hrows).
    exists rows. split; [done|]. intros p.
    rewrite elem_of_fst, <- platform_has_active_node.
    setoid_rewrite Hrows. rewrite Hname. split.
    + intros (c & [Hp _] & _ & Hpos). by split.
    + intros [Hp Hpos]. eexists (Some _). simpl.
      repeat split; [done | congruence | done].
  - destruct (resolve_protocols_rows lower db kwargs) as (rows & Hret & _ & Hrows).
    exists rows. split; [done|]. intros p.
    rewrite elem_of_fst, <- protocol_has_active_node.
    setoid_rewrite Hrows. rewrite Hname. split.
    + intros (c & [Hp _] & _ & Hpos). by split.
    + intros [Hp Hpos]. eexists (Some _). simpl.
      repeat split; [done | congruence | done].
Qed.

Lemma entries_listed_without_name_witness :
  ∃ rows, Query.resolve_platforms ascii_lower nodes_db ∅ = Returned rows
    ∧ ∀ p, p ∈ rows.*1 ↔
        p ∈ platforms nodes_db
        ∧ ∃ n, n ∈ nodes nodes_db ∧ active n = true ∧ node_platform n = platform_pk p.
Proof.
  refine (proj1 (entries_listed_without_name ascii_lower nodes_db ∅ _)).
  left. reflexivity.
Defined.

(** ** More on the aggregate resolvers *)

(** The eight resolvers take their rows the same way: for given arguments
    they all work on the same stat rows, or they all raise the value
    error. *)
Lemma aggregate_resolvers_together (db : Database) (kwargs : gmap string string) :
  (∃ qs, selects db (kwargs !! "value") (kwargs !! "itemType") qs
     ∧ (∀ m, sum_resolver m db kwargs = Returned (Query.date_counts (Sum (column m)) qs))
     ∧ Query.resolve_stats_users_active_ratio db kwargs
       = evaluate_quotients
           (Query.date_counts
              (λ rows, (Sum users_monthly rows, Sum users_total rows)) qs)
     ∧ Query.resolve_stats_users_per_node db kwargs
       = Returned (Query.date_counts (Avg users_total) qs))
  ∨ ((∀ m, sum_resolver m db kwargs = Raised (ValueError Query.itemType_message))
     ∧ Query.resolve_stats_users_active_ratio db kwargs
       = Raised (ValueError Query.itemType_message)
     ∧ Query.resolve_stats_users_per_node db kwargs
       = Raised (ValueError Query.itemType_message)).
Proof.
  destruct (truthy (kwargs !! "value") && truthy (kwargs !! "itemType")) eqn:Hvt.
  - apply andb_true_iff in Hvt as [Hv Ht].
    destruct (truthy_true _ Hv) as (v & Hv' & Hne).
    destruct (truthy_true _ Ht) as (t & Ht' & _).
    destruct (recognised_or_not t) as [[i ->]|Hno].
    + left. exists (scope_rows db i (Some v)). split; [|split; [|split]].
      * rewrite Hv'. by eapply selects_item.
      * intros m. rewrite sum_resolver_eq, Hv', Ht'.
        by apply get_stat_date_counts_scoped.
      * by apply active_ratio_scoped.
      * by apply users_per_node_scoped.
    + assert (∀ i, kwargs !! "itemType" ≠ Some (item_name i)) as Hno'.
      { intros i. rewrite Ht'. intros [= ->]. by apply (Hno i). }
      right. split; [|split].
      * intros m. rewrite sum_resolver_eq.
        by apply get_stat_date_counts_unrecognised.
      * by apply active_ratio_unrecognised.
      * by apply users_per_node_unrecognised.
  - left. eexists. split; [by apply selects_every_node|]. split; [|split].
    + intros m. rewrite sum_resolver_eq. by apply get_stat_date_counts_unscoped.
    + by apply active_ratio_unscoped.
    + by apply users_per_node_unscoped.
Qed.

Lemma date_counts_nil {C} (agg : list Stat → C) : Query.date_counts agg [] = [].
Proof. done. Qed.

(** X12: a recognised [itemType] with a [value] that no stat row is in the
    scope of (a host that no node has, say) is no error: the eight aggregate
    resolvers return the empty series. *)
Theorem empty_scope_gives_empty_series (db : Database) (kwargs : gmap string string)
    (i : item) (v : string) :
  kwargs !! "itemType" = Some (item_name i) →
  kwargs !! "value" = Some v → v ≠ "" →
  (∀ s, s ∈ stats db → ¬ in_scope db i v s) →
  (∀ m, sum_resolver m db kwargs = Returned [])
  ∧ Query.resolve_stats_users_active_ratio db kwargs = Returned []
  ∧ Query.resolve_stats_users_per_node db kwargs = Returned [].
Proof.
  intros Hi Hv Hne Hnone.
  assert (scope_rows db i (Some v) = []) as Hnil.
  { apply elem_of_nil_inv. intros s [Hs Hin]%elem_of_scope_rows. by apply (Hnone s). }
  split; [|split].
  - intros m. rewrite sum_resolver_eq, Hi, Hv.
    rewrite get_stat_date_counts_scoped by done. by rewrite Hnil.
  - rewrite (active_ratio_scoped db kwargs i v) by done. by rewrite Hnil.
  - rewrite (users_per_node_scoped db kwargs i v) by done. by rewrite Hnil.
Qed.

Lemma empty_scope_gives_empty_series_witness :
  Query.resolve_stats_users_per_node nodes_db
    {[ "itemType" := "node"; "value" := "nowhere.example" ]} = Returned [].
Proof.
  refine (proj2 (proj2 (empty_scope_gives_empty_series nodes_db
    ({[ "itemType" := "node"; "value" := "nowhere.example" ]}) ItemNode "nowhere.example"
    _ _ _ _))).
  - reflexivity.
  - reflexivity.
  - discriminate.
  - intros s _ (n & Hn & _ & Hhost). simpl in Hn.
    repeat (apply elem_of_cons in Hn as [->|Hn]; [discriminate|]).
    by apply elem_of_nil in Hn.
Defined.

(** X13: the eight aggregate resolvers reject the same arguments: one of
    them raises the value error exactly when the others raise it.  The sum
    resolvers and [stats_users_per_node] raise nothing else, and
    [stats_users_active_ratio] nothing else but the division by zero of the
    database. *)
Theorem aggregate_resolvers_raise_together (db : Database) (kwargs : gmap string string)
    (m : metric) :
  (∀ msg, sum_resolver m db kwargs = Raised (ValueError msg)
          ↔ Query.resolve_stats_users_active_ratio db kwargs = Raised (ValueError msg))
  ∧ (∀ msg, Query.resolve_stats_users_active_ratio db kwargs = Raised (ValueError msg)
            ↔ Query.resolve_stats_users_per_node db kwargs = Raised (ValueError msg))
  ∧ (∀ e, sum_resolver m db kwargs = Raised e
          ∨ Query.resolve_stats_users_per_node db kwargs = Raised e →
          e = ValueError Query.itemType_message)
  ∧ (∀ e, Query.resolve_stats_users_active_ratio db kwargs = Raised e →
          e = ValueError Query.itemType_message
          ∨ e = DatabaseError "division by zero").
Proof.
  destruct (aggregate_resolvers_together db kwargs)
    as [(qs & _ & Hsum & Hratio & Havg) | (Hsum & Hratio & Havg)];
    rewrite (Hsum m), Hratio, Havg.
  - assert (∀ e, evaluate_quotients
                   (Query.date_counts
                      (λ rows, (Sum users_monthly rows, Sum users_total rows)) qs)
                 = Raised e → e = DatabaseError "division by zero") as Hzero.
    { by intros e [-> _]%evaluate_quotients_Raised. }
    split; [|split; [|split]].
    + intros msg. split; [done|]. by intros ?%Hzero.
    + intros msg. split; [|done]. by intros ?%Hzero.
    + by intros e [?|?].
    + intros e ?%Hzero. by right.
  - split; [|split; [|split]].
    + intros msg. split; by intros [= <-].
    + intros msg. split; by intros [= <-].
    + intros e [[= <-]|[= <-]]; done.
    + intros e [= <-]. by left.
Qed.

(** X14: the rows of [stats_users_active_ratio] pair the counts of
    [stats_users_monthly] and [stats_users_total] for the same arguments: a
    date carries the operands [(a, b)] exactly when it carries [a] in the
    monthly series and [b] in the total series. *)
Theorem active_ratio_pairs_the_sums (db : Database) (kwargs : gmap string string)
    (ratio : list (date * (option Z * option Z))) :
  Query.resolve_stats_users_active_ratio db kwargs = Returned ratio →
  ∃ monthly total,
    Query.resolve_stats_users_monthly db kwargs = Returned monthly
    ∧ Query.resolve_stats_users_total db kwargs = Returned total
    ∧ ∀ d a b, (d, (a, b)) ∈ ratio ↔ (d, a) ∈ monthly ∧ (d, b) ∈ total.
Proof.
  intros Hret.
  destruct (aggregate_resolvers_together db kwargs)
    as [(qs & _ & Hsum & Hratio & _) | (_ & Hratio & _)]; [|congruence].
  rewrite Hratio in Hret. apply evaluate_quotients_Returned in Hret as [-> _].
  eexists _, _. split; [apply (Hsum Users_monthly)|]. split; [apply (Hsum Users_total)|].
  intros d a b. rewrite !elem_of_date_counts. simpl. naive_solver.
Qed.

Lemma active_ratio_pairs_the_sums_witness :
  ∃ monthly total,
    Query.resolve_stats_users_monthly nodes_db ∅ = Returned monthly
    ∧ Query.resolve_stats_users_total nodes_db ∅ = Returned total
    ∧ ∀ d a b,
        (d, (a, b)) ∈ [(jan 2, (Some 90, Some 95)); (jan 3, (Some 125, Some 150))]
        ↔ (d, a) ∈ monthly ∧ (d, b) ∈ total.
Proof.
  refine (active_ratio_pairs_the_sums nodes_db ∅
            [(jan 2, (Some 90, Some 95)); (jan 3, (Some 125, Some 150))] _).
  vm_compute. reflexivity.
Defined.

Lemma sql_avg_sum (l : list (option Z)) (x n : Z) :
  sql_avg l = Some (x, n) ↔ sql_sum l = Some x ∧ n = Z.of_nat (length (non_null l)).
Proof.
  unfold sql_avg, sql_sum. destruct (non_null l) as [|z zs]; [naive_solver|].
  split; [by intros [= <- <-] | by intros [[= <-] ->]].
Qed.

Lemma sql_avg_None (l : list (option Z)) : sql_avg l = None ↔ sql_sum l = None.
Proof. unfold sql_avg, sql_sum. by destruct (non_null l). Qed.

(** X15: the average that [stats_users_per_node] reports for a date is the
    count of [stats_users_total] for that date over a positive number of
    rows, and it is NULL exactly where that count is. *)
Theorem users_per_node_divides_the_total (db : Database) (kwargs : gmap string string)
    (avg : list (date * option (Z * Z))) :
  Query.resolve_stats_users_per_node db kwargs = Returned avg →
  ∃ total,
    Query.resolve_stats_users_total db kwargs = Returned total
    ∧ (∀ d x n, (d, Some (x, n)) ∈ avg → (d, Some x) ∈ total ∧ 0 < n)
    ∧ (∀ d, (d, None) ∈ avg ↔ (d, None) ∈ total).
Proof.
  intros Hret.
  destruct (aggregate_resolvers_together db kwargs)
    as [(qs & _ & Hsum & _ & Havg) | (_ & _ & Havg)]; [|congruence].
  rewrite Havg in Hret. injection Hret as <-.
  eexists. split; [apply (Hsum Users_total)|]. split.
  - intros d x n [Hd Hx]%elem_of_date_counts.
    symmetry in Hx. apply sql_avg_sum in Hx as [Hx ->]. split.
    + apply elem_of_date_counts. split; [done|]. by rewrite <- Hx.
    + unfold sql_sum in Hx. destruct (non_null _); [done | simpl; lia].
  - intros d. rewrite !elem_of_date_counts. unfold Avg, Sum. simpl.
    split; intros [Hd Hx]; (split; [done|]); symmetry; symmetry in Hx.
    + by apply sql_avg_None.
    + by apply sql_avg_None.
Qed.

Lemma users_per_node_divides_the_total_witness :
  ∃ total,
    Query.resolve_stats_users_total nodes_db ∅ = Returned total
    ∧ (∀ d x n, (d, Some (x, n)) ∈ [(jan 2, Some (95, 1)); (jan 3, Some (150, 3))] →
         (d, Some x) ∈ total ∧ 0 < n)
    ∧ (∀ d, (d, None) ∈ [(jan 2, Some (95, 1)); (jan 3, Some (150, 3))]
            ↔ (d, None) ∈ total).
Proof.
  refine (users_per_node_divides_the_total nodes_db ∅
            [(jan 2, Some (95, 1)); (jan 3, Some (150, 3))] _).
  vm_compute. reflexivity.
Defined.

Lemma selects_functional db v t qs1 qs2 :
  selects db v t qs1 → selects db v t qs2 → qs1 = qs2.
Proof.
  intros [i1 v1 Hv1 Hne1 Ht1 | Hvt1] [i2 v2 Hv2 Hne2 Ht2 | Hvt2]; [| | |done].
  - rewrite Ht1 in Ht2. by destruct i1, i2.
  - subst v t. by rewrite (proj2 (truthy_Some v1) Hne1), item_name_truthy in Hvt2.
  - subst v t. by rewrite (proj2 (truthy_Some v2) Hne2), item_name_truthy in Hvt1.
Qed.

(** X22: on the stat rows it works on, [stats_users_active_ratio] returns
    its series when no date has users_total summing to zero, and raises the
    division by zero of the database when, for some date, users_total sums
    to zero while users_monthly has a sum. *)
Theorem active_ratio_divides_by_zero (db : Database) (kwargs : gmap string string)
    (qs : list Stat) :
  selects db (kwargs !! "value") (kwargs !! "itemType") qs →
  (no_zero_total qs →
     Query.resolve_stats_users_active_ratio db kwargs
     = Returned (Query.date_counts
                   (λ rows, (Sum users_monthly rows, Sum users_total rows)) qs))
  ∧ (∀ d, is_Some (Sum users_monthly (filter (λ s, stat_date s = d) qs)) →
          Sum users_total (filter (λ s, stat_date s = d) qs) = Some 0 →
          Query.resolve_stats_users_active_ratio db kwargs
          = Raised (DatabaseError "division by zero")).
Proof.
  intros Hqs.
  destruct (aggregate_resolvers_together db kwargs)
    as [(qs' & Hqs' & _ & Hratio & _) | (Hsum & _ & _)].
  - rewrite (selects_functional _ _ _ _ _ Hqs' Hqs) in Hratio. rewrite Hratio. split.
    + apply ratio_returns.
    + intros d Hmonthly Htotal.
      destruct (evaluate_quotients _) as [out|e] eqn:Heval.
      * apply evaluate_quotients_Returned in Heval as [_ Hno].
        destruct (Hno (d, (Sum users_monthly (filter (λ s, stat_date s = d) qs),
                           Sum users_total (filter (λ s, stat_date s = d) qs)))).
        -- apply elem_of_date_counts. split; [|done].
           destruct (filter (λ s, stat_date s = d) qs) as [|s l] eqn:Hgroup; [done|].
           assert (s ∈ filter (λ s, stat_date s = d) qs) as Hs by (rewrite Hgroup; left).
           apply list_elem_of_filter in Hs as [Hd Hs]. by exists s.
        -- by split.
      * by apply ratio_raises in Heval as [-> _].
  - specialize (Hsum Users_total). rewrite sum_resolver_eq in Hsum.
    destruct Hqs as [i v Hv Hne Ht | Hvt].
    + by rewrite Hv, Ht, get_stat_date_counts_scoped in Hsum.
    + by rewrite get_stat_date_counts_unscoped in Hsum.
Qed.

Lemma active_ratio_divides_by_zero_witness :
  Query.resolve_stats_users_active_ratio idle_db ∅
  = Raised (DatabaseError "division by zero").
Proof.
  refine (proj2 (active_ratio_divides_by_zero idle_db ∅
                   (filter (λ s, stat_node s ≠ None) (stats idle_db)) _) (jan 1) _ _).
  - apply selects_every_node. reflexivity.
  - vm_compute. eexists. reflexivity.
  - vm_compute. reflexivity.
Defined.

(** ** The counts of a series add up *)

Lemma sql_sum_cons (a : option Z) (l : list (option Z)) :
  sql_sum (a :: l) = sql_add a (sql_sum l).
Proof.
  unfold sql_sum, non_null.
  change (omap id (a :: l)) with (match a with Some x => x :: omap id l | None => omap id l end).
  destruct a as [x|]; [|done]. destruct (omap id l); simpl; f_equal; lia.
Qed.

Lemma sql_add_swap (a b c : option Z) :
  sql_add a (sql_add b c) = sql_add b (sql_add a c).
Proof. destruct a, b, c; simpl; f_equal; lia. Qed.

Lemma sql_add_assoc (a b c : option Z) :
  sql_add (sql_add a b) c = sql_add a (sql_add b c).
Proof. destruct a, b, c; simpl; f_equal; lia. Qed.

Lemma sql_sum_Permutation (l k : list (option Z)) : l ≡ₚ k → sql_sum l = sql_sum k.
Proof.
  induction 1 as [|x l k _ IH|x y l|l k j _ IH1 _ IH2].
  - done.
  - by rewrite !sql_sum_cons, IH.
  - rewrite !sql_sum_cons. apply sql_add_swap.
  - by rewrite IH1.
Qed.

Lemma sql_sum_all_None {K} (ks : list K) : sql_sum ((λ _, None) <$> ks) = None.
Proof.
  induction ks as [|k ks IH]; [done|]. by rewrite fmap_cons, sql_sum_cons, IH.
Qed.

(** Adding [c] to the sum of one group adds it to the sum of the groups. *)
Lemma sql_sum_add_at {K} `{EqDecision K} (f : K → option Z) (x : K) (c : option Z)
    (ks : list K) :
  NoDup ks → x ∈ ks →
  sql_sum ((λ k, if decide (k = x) then sql_add c (f k) else f k) <$> ks)
  = sql_add c (sql_sum (f <$> ks)).
Proof.
  induction ks as [|k ks IH]; intros Hnd Hx; [by apply elem_of_nil in Hx|].
  apply NoDup_cons in Hnd as [Hk Hnd].
  rewrite !fmap_cons, !sql_sum_cons. destruct (decide (k = x)) as [->|Hne].
  - rewrite sql_add_assoc. do 3 f_equal.
    apply list_fmap_ext. intros _ k' Hk'%list_elem_of_lookup_2.
    rewrite decide_False; [done|]. by intros ->.
  - apply elem_of_cons in Hx as [->|Hx]; [done|].
    rewrite IH by done. apply sql_add_swap.
Qed.

(** The sums of the groups of a queryset add up to the sum of the
    queryset. *)
Lemma sql_sum_groups {A K} `{EqDecision K} (key : A → K) (col : A → option Z)
    (ks : list K) (qs : list A) :
  NoDup ks → (∀ a, a ∈ qs → key a ∈ ks) →
  sql_sum ((λ k, Sum col (filter (λ a, key a = k) qs)) <$> ks) = Sum col qs.
Proof.
  intros Hnd. unfold Sum. induction qs as [|a qs IH]; intros Hks.
  - apply sql_sum_all_None.
  - rewrite fmap_cons, sql_sum_cons.
    rewrite <- IH by (intros a' Ha'; apply Hks; by right).
    rewrite <- (sql_sum_add_at _ (key a)) by (done || (apply Hks; left)).
    f_equal. apply list_fmap_ext. intros _ k _.
    destruct (decide (k = key a)) as [->|Hne].
    + by rewrite filter_cons_True, fmap_cons, sql_sum_cons.
    + by rewrite filter_cons_False by (by intros <-).
Qed.

Lemma values_annotate_aggregates {A K C} `{EqDecision K}
    (key : A → K) (agg : list A → C) (qs : list A) :
  (values_annotate key agg qs).*2
  = (λ k, agg (filter (λ a, key a = k) qs)) <$> remove_dups (key <$> qs).
Proof. unfold values_annotate. by rewrite <- list_fmap_compose. Qed.

Lemma date_counts_total (col : Stat → option Z) (qs : list Stat) :
  sql_sum (Query.date_counts (Sum col) qs).*2 = Sum col qs.
Proof.
  unfold Query.date_counts.
  rewrite (sql_sum_Permutation _ (values_annotate stat_date (Sum col) qs).*2)
    by (by rewrite (order_by_Permutation by_date)).
  rewrite values_annotate_aggregates. apply sql_sum_groups.
  - apply NoDup_remove_dups.
  - intros s Hs. apply elem_of_remove_dups. by apply list_elem_of_fmap_2.
Qed.

(** X16: the counts of a sum series add up to the sum of the column over
    all the stat rows the resolver works on: grouping by date loses and
    repeats nothing (SQL sums, which skip NULL). *)
Theorem series_counts_add_up (db : Database) (m : metric) (kwargs : gmap string string)
    (out : list (date * option Z)) :
  sum_resolver m db kwargs = Returned out →
  ∃ qs, selects db (kwargs !! "value") (kwargs !! "itemType") qs
    ∧ sql_sum out.*2 = sql_sum (column m <$> qs).
Proof.
  intros Hout. rewrite sum_resolver_eq in Hout.
  apply get_stat_date_counts_Returned in Hout as (qs & Hqs & ->).
  exists qs. split; [done|]. apply date_counts_total.
Qed.

Lemma series_counts_add_up_witness :
  ∃ qs, selects nodes_db None None qs
    ∧ sql_sum [Some 95; Some 150] = sql_sum (users_total <$> qs).
Proof.
  refine (series_counts_add_up nodes_db Users_total ∅
            [(jan 2, Some 95); (jan 3, Some 150)] _).
  vm_compute. reflexivity.
Defined.

(** ** The stat resolvers and the active flag *)

Lemma filter_fmap {A B} (g : A → B) (P : B → Prop) `{∀ b, Decision (P b)} (l : list A) :
  filter P (g <$> l) = g <$> filter (λ a, P (g a)) l.
Proof.
  induction l as [|a l IH]; [done|]. rewrite fmap_cons.
  destruct (decide (P (g a))).
  - by rewrite !filter_cons_True, fmap_cons, IH.
  - by rewrite !filter_cons_False, IH.
Qed.

Lemma join_filter_ext {A B B'} (rel : A → list B) (rel' : A → list B')
    (P : B → Prop) (P' : B' → Prop) `{∀ b, Decision (P b)} `{∀ b, Decision (P' b)}
    (l : list A) :
  (∀ a, length (filter P' (rel' a)) = length (filter P (rel a))) →
  join_filter rel' P' l = join_filter rel P l.
Proof.
  intros Hlen. unfold join_filter. apply list_bind_ext; [|done]. intros a.
  specialize (Hlen a). revert Hlen.
  generalize (filter P' (rel' a)) (filter P (rel a)). intros l1.
  induction l1 as [|b l1 IH]; intros [|c l2] Hlen; simpl in Hlen; try done.
  rewrite !fmap_cons. f_equal. apply IH. lia.
Qed.

Lemma lookup_filter_ext {A} (cols cols' : A → list (option string))
    (value : option string) (l : list A) :
  (∀ a, cols' a = cols a) → lookup_filter cols' value l = lookup_filter cols value l.
Proof.
  intros Hcols. unfold lookup_filter. apply list_bind_ext; [|done].
  intros a. by rewrite Hcols.
Qed.

Section active_flag.
Variables (f : Node → bool) (db : Database).

Lemma Stat_node_set_active s :
  Stat_node (set_active f db) s = with_active f <$> Stat_node db s.
Proof. unfold Stat_node. simpl. destruct (stat_node s); [|done]. apply filter_fmap. Qed.

Lemma filter_node__platform__name_set_active v :
  Query.filter_node__platform__name (set_active f db) v
  = Query.filter_node__platform__name db v.
Proof.
  unfold Query.filter_node__platform__name. simpl. apply join_filter_ext. intros s.
  by rewrite Stat_node_set_active, list_fmap_bind.
Qed.

Lemma filter_node__protocols__name_set_active v :
  Query.filter_node__protocols__name (set_active f db) v
  = Query.filter_node__protocols__name db v.
Proof.
  unfold Query.filter_node__protocols__name. simpl. apply join_filter_ext. intros s.
  by rewrite Stat_node_set_active, list_fmap_bind.
Qed.

Lemma filter_node__host_set_active v :
  Query.filter_node__host (set_active f db) v = Query.filter_node__host db v.
Proof.
  unfold Query.filter_node__host. simpl. apply join_filter_ext. intros s.
  by rewrite Stat_node_set_active, filter_fmap, length_fmap.
Qed.

Lemma left_join_Stat_node_set_active s :
  left_join (Stat_node (set_active f db)) (Some s)
  = (λ n : option Node, with_active f <$> n) <$> left_join (Stat_node db) (Some s).
Proof.
  unfold left_join. rewrite Stat_node_set_active.
  destruct (Stat_node db s) as [|n ns]; [done|].
  rewrite !fmap_cons. simpl. f_equal. rewrite <- !list_fmap_compose. done.
Qed.

Lemma lookups_set_active s :
  node__platform__name (set_active f db) s = node__platform__name db s
  ∧ node__protocols__name (set_active f db) s = node__protocols__name db s
  ∧ node__host (set_active f db) s = node__host db s.
Proof.
  unfold node__platform__name, node__protocols__name, node__host.
  rewrite left_join_Stat_node_set_active. split; [|split].
  - rewrite list_fmap_bind. apply list_bind_ext; [|done]. by intros [n|].
  - rewrite list_fmap_bind. apply list_bind_ext; [|done]. by intros [n|].
  - rewrite <- list_fmap_compose. apply list_fmap_ext. by intros _ [n|] _.
Qed.

End active_flag.

(** X17: the resolvers that read stat rows never look at the active flag
    of a node: with other flags on the nodes, the eight aggregate resolvers
    and [resolve_stats_nodes] give what they gave; the rows of inactive
    nodes are counted like the others. *)
Theorem stat_resolvers_ignore_active (f : Node → bool) (db : Database) (today : date)
    (kwargs : gmap string string) :
  (∀ m, sum_resolver m (set_active f db) kwargs = sum_resolver m db kwargs)
  ∧ Query.resolve_stats_users_active_ratio (set_active f db) kwargs
    = Query.resolve_stats_users_active_ratio db kwargs
  ∧ Query.resolve_stats_users_per_node (set_active f db) kwargs
    = Query.resolve_stats_users_per_node db kwargs
  ∧ Query_rows.resolve_stats_nodes (set_active f db) today kwargs
    = Query_rows.resolve_stats_nodes db today kwargs.
Proof.
  split; [|split; [|split]].
  - intros m. rewrite !sum_resolver_eq. unfold Query._get_stat_date_counts.
    by rewrite filter_node__platform__name_set_active,
      filter_node__protocols__name_set_active, filter_node__host_set_active.
  - unfold Query.resolve_stats_users_active_ratio.
    by rewrite filter_node__platform__name_set_active,
      filter_node__protocols__name_set_active, filter_node__host_set_active.
  - unfold Query.resolve_stats_users_per_node.
    by rewrite filter_node__platform__name_set_active,
      filter_node__protocols__name_set_active, filter_node__host_set_active.
  - unfold Query_rows.resolve_stats_nodes.
    change (stats (set_active f db)) with (stats db).
    destruct (if truthy (kwargs !! "itemType") then _ else _) as [item_type value].
    rewrite !(lookup_filter_ext (node__platform__name db)
                (node__platform__name (set_active f db)))
      by (intros s; apply lookups_set_active).
    rewrite !(lookup_filter_ext (node__protocols__name db)
                (node__protocols__name (set_active f db)))
      by (intros s; apply lookups_set_active).
    rewrite !(lookup_filter_ext (node__host db) (node__host (set_active f db)))
      by (intros s; apply lookups_set_active).
    done.
Qed.

(** ** More on the local settings *)

Lemma env_bool_unset (env : Local.Env) (var : string) (default : bool) :
  Local.environ env !! var = None → Local.env_bool env var default = default.
Proof. intros Hvar. unfold Local.env_bool. by rewrite Hvar. Qed.

(** X18: [MIDDLEWARE] keeps the middleware of the base settings first and
    in their order, and ends with the query-count middleware; with
    [DJANGO_DEBUG_TOOLBAR] unset the debug-toolbar middleware comes right
    before it. *)
Theorem middleware_order (env : Local.Env) (base : list string) :
  base `prefix_of` Development.MIDDLEWARE env base
  ∧ last (Development.MIDDLEWARE env base)
    = Some "querycount.middleware.QueryCountMiddleware"
  ∧ (Local.environ env !! "DJANGO_DEBUG_TOOLBAR" = None →
       Development.MIDDLEWARE env base
       = base ++ ["debug_toolbar.middleware.DebugToolbarMiddleware";
                  "querycount.middleware.QueryCountMiddleware"]).
Proof.
  unfold Development.MIDDLEWARE. split; [|split].
  - destruct (Local.env_bool env "DJANGO_DEBUG_TOOLBAR" true).
    + rewrite <- app_assoc. by apply prefix_app_r.
    + by apply prefix_app_r.
  - apply last_snoc.
  - intros Hunset. rewrite env_bool_unset by done. by rewrite <- app_assoc.
Qed.

(** X19: the debug toolbar is switched as a whole: when the base settings
    have none of it, its middleware is in [MIDDLEWARE] exactly when its two
    apps are in [INSTALLED_APPS], which is exactly when
    [DEBUG_TOOLBAR_ENABLED] is bound to [True], and that is when
    [DJANGO_DEBUG_TOOLBAR] reads as true or is unset. *)
Theorem debug_toolbar_switch (env : Local.Env) (base_middleware base_apps : list string) :
  "debug_toolbar.middleware.DebugToolbarMiddleware" ∉ base_middleware →
  "debug_toolbar" ∉ base_apps → "debug_toolbar_user_panel" ∉ base_apps →
  let enabled := Local.env_bool env "DJANGO_DEBUG_TOOLBAR" true = true in
  ("debug_toolbar.middleware.DebugToolbarMiddleware"
     ∈ Development.MIDDLEWARE env base_middleware ↔ enabled)
  ∧ ("debug_toolbar" ∈ Development.INSTALLED_APPS env base_apps ↔ enabled)
  ∧ ("debug_toolbar_user_panel" ∈ Development.INSTALLED_APPS env base_apps ↔ enabled)
  ∧ (Development.DEBUG_TOOLBAR_ENABLED env None = Some true ↔ enabled)
  ∧ (enabled ↔
       Local.environ env !! "DJANGO_DEBUG_TOOLBAR" = None
       ∨ ∃ text, Local.environ env !! "DJANGO_DEBUG_TOOLBAR" = Some text
                 ∧ Local.cast_bool env text = true).
Proof.
  intros Hmw Happ Hpanel. simpl.
  unfold Development.MIDDLEWARE, Development.INSTALLED_APPS,
    Development.DEBUG_TOOLBAR_ENABLED.
  split; [|split; [|split; [|split]]].
  - destruct (Local.env_bool env "DJANGO_DEBUG_TOOLBAR" true); set_solver.
  - destruct (Local.env_bool env "DJANGO_DEBUG_TOOLBAR" true); set_solver.
  - destruct (Local.env_bool env "DJANGO_DEBUG_TOOLBAR" true); set_solver.
  - by destruct (Local.env_bool env "DJANGO_DEBUG_TOOLBAR" true).
  - unfold Local.env_bool.
    destruct (Local.environ env !! "DJANGO_DEBUG_TOOLBAR") as [text|]; naive_solver.
Qed.

Lemma debug_toolbar_switch_witness :
  let env := {| Local.environ := {[ "DJANGO_DEBUG_TOOLBAR" := "off" ]};
                Local.cast_bool := λ text, bool_decide (text = "on") |} in
  "debug_toolbar" ∈ Development.INSTALLED_APPS env ["thefederation"]
  ↔ Local.env_bool env "DJANGO_DEBUG_TOOLBAR" true = true.
Proof.
  refine (proj1 (proj2 (debug_toolbar_switch
    {| Local.environ := {[ "DJANGO_DEBUG_TOOLBAR" := "off" ]};
       Local.cast_bool := λ text, bool_decide (text = "on") |}
    ["django.middleware.common.CommonMiddleware"] ["thefederation"] _ _ _))).
  - apply (bool_decide_unpack _). vm_compute. exact I.
  - apply (bool_decide_unpack _). vm_compute. exact I.
  - apply (bool_decide_unpack _). vm_compute. exact I.
Defined.

(** X20: template debugging is on under [CI] whatever [DJANGO_DEBUG] says,
    and otherwise follows [DEBUG], which is on unless [DJANGO_DEBUG] is set
    and reads as false. *)
Theorem template_debug (env : Local.Env) :
  (Local.env_bool env "CI" false = true → Development.TEMPLATES_debug env = true)
  ∧ (Local.env_bool env "CI" false = false →
       Development.TEMPLATES_debug env = Development.DEBUG env)
  ∧ (Development.DEBUG env = false ↔
       ∃ text, Local.environ env !! "DJANGO_DEBUG" = Some text
               ∧ Local.cast_bool env text = false)
  ∧ (Development.TEMPLATES_debug env = false → Development.DEBUG env = false).
Proof.
  unfold Development.TEMPLATES_debug, Development.DEBUG. split; [|split; [|split]].
  - by intros ->.
  - by intros ->.
  - unfold Local.env_bool.
    destruct (Local.environ env !! "DJANGO_DEBUG") as [text|]; naive_solver.
  - by destruct (Local.env_bool env "CI" false).
Qed.

(** X21: of the integer settings, the module sets [EMAIL_PORT] to 1025 in
    every mode and leaves every name but [EMAIL_PORT] and [REDIS_DB] as the
    base settings have it. *)
Theorem integer_settings_kept (env : Local.Env) (argv : list string) (base : gmap string Z) :
  Local.settings env argv base !! "EMAIL_PORT" = Some 1025
  ∧ ∀ name, name ≠ "EMAIL_PORT" → name ≠ "REDIS_DB" →
      Local.settings env argv base !! name = base !! name.
Proof.
  unfold Local.settings. split.
  - destruct (Local.testing env argv); [rewrite lookup_insert_ne by done|];
      apply lookup_insert_eq.
  - intros name Hport Hredis.
    destruct (Local.testing env argv); by rewrite !lookup_insert_ne.
Qed.

(** ** Worked examples *)

(** A node without a stat row for today has no [users] value and comes
    last. *)
Example nodes_without_count_come_last :
  Query.resolve_nodes series_db (jan 3) ∅ = Returned [(pod, Some 4); (social, None)].
Proof. by vm_compute. Qed.

(** A node with two different counts for today makes the subquery select
    two rows. *)
Example nodes_with_two_counts_today :
  Query.resolve_nodes
    {| platforms := [diaspora]; protocols := []; nodes := [pod]; node_protocols := [];
       stats := [snapshot 1 (jan 3) 1 5 10; snapshot 2 (jan 3) 1 6 10] |} (jan 3) ∅
  = Raised (DatabaseError "more than one row returned by a subquery used as an expression").
Proof. by vm_compute. Qed.

(** The scoped series counts the rows of inactive nodes too: the protocol
    "diaspora" has the rows of [pod] and of [gone]. *)
Example series_of_a_protocol :
  Query.resolve_stats_users_total nodes_db {[ "itemType" := "protocol"; "value" := "diaspora" ]}
  = Returned [(jan 2, Some 95); (jan 3, Some 90)].
Proof. by vm_compute. Qed.

Example platforms_by_lower_cased_name :
  Query.resolve_platforms ascii_lower nodes_db {[ "name" := "Mastodon" ]}
  = Returned [(mastodon, Some 1)].
Proof. by vm_compute. Qed.

Example rollup_row_of_a_platform :
  Query.resolve_stats_platform_today nodes_db (jan 3) {[ "name" := "diaspora" ]}
  = Returned (Query.Row (Some (platform_rollup 5 (jan 3) 1 15))).
Proof. by vm_compute. Qed.

Example testing_from_argv :
  Local.testing {| Local.environ := ∅; Local.cast_bool := λ _, false |} ["manage.py"; "test"]
  = true
  ∧ Local.settings {| Local.environ := ∅; Local.cast_bool := λ _, false |}
      ["manage.py"; "test"] {[ "REDIS_DB" := 0 ]} !! "REDIS_DB" = Some 15
  ∧ Local.settings {| Local.environ := ∅; Local.cast_bool := λ _, false |}
      ["manage.py"; "runserver"] {[ "REDIS_DB" := 0 ]} !! "REDIS_DB" = Some 0.
Proof. by vm_compute. Qed.

(** [itemType="node"] does not scope [stats_nodes]: the rows of all three
    nodes come back, whatever the [value]. *)
Example stats_nodes_of_a_node :
  stat_pk <$> Query_rows.resolve_stats_nodes nodes_db (jan 3)
                {[ "itemType" := "node"; "value" := "pod.example" ]}
  = [1; 2; 3].
Proof. by vm_compute. Qed.

(** [itemType="protocol"] without a [value] finds the rows of the node that
    has no protocol. *)
Example stats_nodes_without_protocol :
  stat_pk <$> Query_rows.resolve_stats_nodes
    {| platforms := [diaspora; mastodon]; protocols := [diaspora_protocol];
       nodes := [pod; social]; node_protocols := [(1, 1)];
       stats := [snapshot 1 (jan 3) 1 5 10; snapshot 2 (jan 3) 2 50 60] |}
    (jan 3) {[ "itemType" := "protocol" ]}
  = [2].
Proof. by vm_compute. Qed.

Example development_middleware :
  Development.MIDDLEWARE {| Local.environ := ∅; Local.cast_bool := λ _, false |}
    ["django.middleware.common.CommonMiddleware"]
  = ["django.middleware.common.CommonMiddleware";
     "debug_toolbar.middleware.DebugToolbarMiddleware";
     "querycount.middleware.QueryCountMiddleware"].
Proof. by vm_compute. Qed.
